(** * Property marshalling and schema resolution of neomodantic

  A shallow embedding of
  - [neomodel/sync_/property_manager.py]   (schema resolver, property manager),
  - [neomodantic/async_/relationship.py]   (metaclass guard, relationship entity),
  - [neomodantic/contrib/spatial_properties.py] (spatial value type, PointProperty),
  followed by the properties proved about them. *)

From stdpp Require Import base option list strings gmap pretty.
From Stdlib Require Import ZArith Lia.
From Stdlib Require Strings.String.

Local Open Scope string_scope.
Local Open Scope Z_scope.
Local Open Scope list_scope.

(** ** Python runtime fragments *)

(** Exceptions, by class.  [RequiredProperty(name, cls)] is the exception of
  [neomodel.exceptions]; [LibraryError] stands for an exception raised by a
  collaborator outside these sources (a descriptor's validator, shapely). *)
Inductive exn :=
| ValueError (msg : string)
| TypeError (msg : string)
| AttributeError (msg : string)
| RequiredProperty (property_name : string) (cls : string)
| LibraryError (kind msg : string).

(** The outcome of a call that may raise. *)
Inductive result (A : Type) :=
| Ok (a : A)
| Raise (e : exn).
Arguments Ok {A} a.
Arguments Raise {A} e.

#[global] Instance result_ret : MRet result := fun _ a => Ok a.
#[global] Instance result_bind : MBind result := fun _ _ f m =>
  match m with Ok a => f a | Raise e => Raise e end.
#[global] Instance result_fmap : FMap result := fun _ _ f m =>
  match m with Ok a => Ok (f a) | Raise e => Raise e end.

Definition raises {A} (r : result A) : Prop := exists e, r = Raise e.

(** A Python [dict] whose iteration order matters: an association list in
  insertion order.  Assigning to a present key keeps its position, assigning
  to a new key appends. *)
Module Dict.
Section dict.
Context {A : Type}.

Fixpoint get (k : string) (d : list (string * A)) : option A :=
  match d with
  | [] => None
  | (k', v) :: d' => if decide (k' = k) then Some v else get k d'
  end.

Fixpoint set (k : string) (v : A) (d : list (string * A)) : list (string * A) :=
  match d with
  | [] => [(k, v)]
  | (k', v') :: d' =>
      if decide (k' = k) then (k, v) :: d' else (k', v') :: set k v d'
  end.

(** [d.update(items)] *)
Definition update (d items : list (string * A)) : list (string * A) :=
  fold_left (fun acc kv => set kv.1 kv.2 acc) items d.

(** [dict(items)] *)
Definition of_items (items : list (string * A)) : list (string * A) :=
  update [] items.

Definition keys (d : list (string * A)) : list string := d.*1.
End dict.
End Dict.

(** ** Descriptors and classes *)

Section PropertyManager.
(** [V]: application-level values other than [None]; [W]: wire values other
    than [None]; [O]: the object handed to validators as context.  A Python
    value that may be [None] is an [option]. *)
Context {V W O : Type}.

(** Modelled from the spec: the [Property] class is not part of these
    sources; [db_property], [has_default], [required], [default_value],
    [choices] and the validators are what the property manager reads from it;
    [setup], when present, is the post-bind hook, run with the bound name and
    the name of the owning class.

    The record stands for any object found as a class attribute or as the
    default of a model field.  The three flags are the [isinstance] tests
    against [Property], [AliasProperty] and [RelationshipDefinition]; an
    object that is none of them has all three [false]. *)
Record descriptor := {
  is_Property : bool;
  is_AliasProperty : bool;
  is_RelationshipDefinition : bool;
  db_property : option string;
  has_default : bool;
  required : bool;
  choices : bool;
  default_value : result (option V);
  prop_deflate : option V -> option O -> result (option W);
  prop_inflate : option W -> gmap string (option W) -> result (option V);
  setup : option (string -> string -> result unit)
}.

(** Modelled from the spec: [get_db_property_name(attr_name)] returns
    [db_name] if set, else [attr_name]. *)
Definition get_db_property_name (p : descriptor) (name : string) : string :=
  default name (db_property p).

(** One class of an MRO: its own namespace [vars(baseclass)] and, when it is a
    subclass of [BaseModel], its [model_fields] (each field given by its
    [default]). *)
Record pyclass := {
  cls_vars : list (string * descriptor);
  cls_model_fields : option (list (string * descriptor))
}.

(** A class as the property manager sees it: its name, its [__mro__] (most
    derived first, the class itself at the head) and the class attributes
    [__all_properties__] / [__all_aliases__] when they are set. *)
Record klass := {
  k_name : string;
  k_mro : list pyclass;
  k_all_properties : option (list (string * descriptor));
  k_all_aliases : option (list (string * descriptor))
}.

(** *** [PropertyManager.defined_properties] *)

(** The condition of the generator over [vars(baseclass).items()]. *)
Definition vars_selected (aliases properties rels : bool) (property : descriptor) : bool :=
  (aliases && is_AliasProperty property)
  || (properties && is_Property property && negb (is_AliasProperty property))
  || (rels && is_RelationshipDefinition property).

(** The body of the loop over [baseclass.model_fields.items()]. *)
Definition merge_field (aliases properties rels : bool)
    (props : list (string * descriptor)) (kf : string * descriptor)
    : list (string * descriptor) :=
  let '(key, field_default) := kf in
  let props := if is_RelationshipDefinition field_default && rels
               then Dict.set key field_default props else props in
  let props := if is_Property field_default && properties
               then Dict.set key field_default props else props in
  let props := if is_AliasProperty field_default && aliases
               then Dict.set key field_default props else props in
  props.

(** The body of the loop over [reversed(cls.__mro__)]. *)
Definition merge_class (aliases properties rels : bool)
    (props : list (string * descriptor)) (baseclass : pyclass)
    : list (string * descriptor) :=
  let props :=
    Dict.update props
      (Dict.of_items
         (List.filter (fun np => vars_selected aliases properties rels np.2)
                      (cls_vars baseclass))) in
  match cls_model_fields baseclass with
  | Some fields => fold_left (merge_field aliases properties rels) fields props
  | None => props
  end.

Definition defined_properties (cls : klass) (aliases properties rels : bool)
    : list (string * descriptor) :=
  fold_left (merge_class aliases properties rels) (rev (k_mro cls)) [].

(** *** [PropertyManager.deflate] *)

(** [properties.get(name)]: [None] for a missing key and for a key bound to
    [None] alike. *)
Definition bag_get (properties : gmap string (option V)) (name : string) : option V :=
  mjoin (properties !! name).

(** A loop that stops at the first exception. *)
Fixpoint foldM {A B : Type} (f : A -> B -> result A) (a : A) (l : list B) : result A :=
  match l with
  | [] => Ok a
  | b :: l' => a' ← f a b; foldM f a' l'
  end.

(** The body of the loop of [deflate]. *)
Definition deflate_entry (cls : klass) (properties : gmap string (option V))
    (obj : option O) (skip_empty : bool)
    (deflated : gmap string (option W)) (np : string * descriptor)
    : result (gmap string (option W)) :=
  let '(name, property) := np in
  let db_property := get_db_property_name property name in
  match bag_get properties name with
  | Some v =>
      w ← prop_deflate property (Some v) obj;
      Ok (<[db_property := w]> deflated)
  | None =>
      if has_default property then
        d ← default_value property;
        w ← prop_deflate property d obj;
        Ok (<[db_property := w]> deflated)
      else if required property then
        Raise (RequiredProperty name (k_name cls))
      else if negb skip_empty then
        Ok (<[db_property := None]> deflated)
      else Ok deflated
  end.

Definition deflate (cls : klass) (properties : gmap string (option V))
    (obj : option O) (skip_empty : bool) : result (gmap string (option W)) :=
  foldM (deflate_entry cls properties obj skip_empty) ∅
        (defined_properties cls false true false).

(** *** [PropertyManager.__init__] *)

(** What an instance attribute holds: a value, or the bound display method
    synthesised for a property with choices. *)
Inductive attr_value :=
| Value (v : option V)
| DisplayMethod (key : string).

(** The first loop of [__init__], over the properties; it threads [kwargs]
    (keys are deleted as they are consumed) and the instance attributes. *)
Definition init_property (st : gmap string (option V) * gmap string attr_value)
    (np : string * descriptor)
    : result (gmap string (option V) * gmap string attr_value) :=
  let '(kwargs, self) := st in
  let '(name, property) := np in
  self ← match bag_get kwargs name with
         | None =>
             if has_default property then
               d ← default_value property;
               Ok (<[name := Value d]> self)
             else Ok (<[name := Value None]> self)
         | Some v => Ok (<[name := Value (Some v)]> self)
         end;
  let self := if choices property
              then <["get_" +:+ name +:+ "_display" := DisplayMethod name]> self
              else self in
  Ok (delete name kwargs, self).

(** The second loop, over the aliases. *)
Definition init_alias (st : gmap string (option V) * gmap string attr_value)
    (np : string * descriptor) : gmap string (option V) * gmap string attr_value :=
  let '(kwargs, self) := st in
  match kwargs !! np.1 with
  | Some v => (delete np.1 kwargs, <[np.1 := Value v]> self)
  | None => (kwargs, self)
  end.

(** [self0] is the instance as [BaseModel.__init__] called with the keyword arguments leaves it. *)
Definition PropertyManager_init (cls : klass) (self0 : gmap string attr_value)
    (kwargs : gmap string (option V)) : result (gmap string attr_value) :=
  let properties :=
    match k_all_properties cls with
    | Some ps => ps
    | None => defined_properties cls false true false
    end in
  st ← foldM init_property (kwargs, self0) properties;
  let aliases :=
    match k_all_aliases cls with
    | Some al => al
    | None => defined_properties cls true false false
    end in
  let '(kwargs, self) := fold_left init_alias aliases st in
  Ok ((Value <$> kwargs) ∪ self).

(** *** [PropertyManager.inflate] *)

Definition inflate_entry (graph_entity : gmap string (option W))
    (inflated : gmap string (option V)) (np : string * descriptor)
    : result (gmap string (option V)) :=
  let '(name, property) := np in
  let db_property := get_db_property_name property name in
  match graph_entity !! db_property with
  | Some w =>
      v ← prop_inflate property w graph_entity;
      Ok (<[name := v]> inflated)
  | None =>
      if has_default property then
        d ← default_value property;
        Ok (<[name := d]> inflated)
      else Ok (<[name := None]> inflated)
  end.

(** [base_init kwargs] is the effect of [BaseModel.__init__] called with the keyword arguments. *)
Definition inflate (cls : klass)
    (base_init : gmap string (option V) -> gmap string attr_value)
    (graph_entity : gmap string (option W)) : result (gmap string attr_value) :=
  inflated ← foldM (inflate_entry graph_entity) ∅
                   (defined_properties cls false true false);
  PropertyManager_init cls (base_init inflated) inflated.

End PropertyManager.
Arguments descriptor : clear implicits.
Arguments pyclass : clear implicits.
Arguments klass : clear implicits.
Arguments attr_value : clear implicits.

(** ** Relationship entities ([neomodantic/async_/relationship.py]) *)

Definition ELEMENT_ID_MIGRATION_NOTICE : string :=
  "id is deprecated in Neo4j version 5, please migrate to element_id. If you use the id in a Cypher query, replace id() by elementId().".

Definition RESERVED_SOURCE_TARGET : string :=
  "Property names 'source' and 'target' are not allowed as they conflict with neomodantic internals.".

Definition RESERVED_ID : string :=
  "
                            Property name 'id' is not allowed as it conflicts with neomodantic internals.
                            Consider using 'uid' or 'identifier' as id is also a Neo4j internal.
                        ".

Definition RESERVED_ELEMENT_ID : string :=
  "
                            Property name 'element_id' is not allowed as it conflicts with neomodantic internals.
                            Consider using 'uid' or 'identifier' as element_id is also a Neo4j internal.
                        ".

(** [except (TypeError, ValueError)] *)
Definition is_TypeError_or_ValueError (e : exn) : bool :=
  match e with
  | TypeError _ | ValueError _ => true
  | _ => false
  end.

Section Relationship.
Context {V W O : Type}.

(** The builtin [int()], applied to whatever an attribute holds. *)
Variable py_int : attr_value V -> result Z.

(** *** [RelationshipMeta.__new__] *)

(** A class-body entry after the metaclass has run: the object and, for a
    [Property], the [name] and [owner] bound on it. *)
Record class_entry := {
  ce_value : descriptor V W O;
  ce_bound : option (string * string)
}.

(** The body of the loop over [dct.items()]; [inst] is the class just
    created, by name. *)
Definition bind_entry (inst : string) (kv : string * descriptor V W O)
    : result (string * class_entry) :=
  let '(key, value) := kv in
  if is_Property value then
    if bool_decide (key = "source" \/ key = "target") then
      Raise (ValueError RESERVED_SOURCE_TARGET)
    else if bool_decide (key = "id") then
      Raise (ValueError RESERVED_ID)
    else if bool_decide (key = "element_id") then
      Raise (ValueError RESERVED_ELEMENT_ID)
    else
      _ ← match setup value with
          | Some hook => hook key inst
          | None => Ok tt
          end;
      Ok (key, {| ce_value := value; ce_bound := Some (key, inst) |})
  else Ok (key, {| ce_value := value; ce_bound := None |}).

Fixpoint bind_entries (inst : string) (dct : list (string * descriptor V W O))
    : result (list (string * class_entry)) :=
  match dct with
  | [] => Ok []
  | kv :: dct' =>
      e ← bind_entry inst kv;
      es ← bind_entries inst dct';
      Ok (e :: es)
  end.

(** The class object returned by the metaclass. *)
Record rel_class := {
  rc_name : string;
  rc_bases : list string;
  rc_dict : list (string * class_entry)
}.

(** [type.__new__] is taken to return the class [name]. *)
Definition RelationshipMeta_new (name : string) (bases : list string)
    (dct : list (string * descriptor V W O)) : result rel_class :=
  entries ← bind_entries name dct;
  Ok {| rc_name := name; rc_bases := bases; rc_dict := entries |}.

(** *** [AsyncStructuredRel] accessors *)

(** An instance is the finite map of what attribute lookup finds on it. *)
Definition hasattr (self : gmap string (attr_value V)) (name : string) : bool :=
  bool_decide (is_Some (self !! name)).

Definition getattr (self : gmap string (attr_value V)) (name : string)
    : result (attr_value V) :=
  match self !! name with
  | Some a => Ok a
  | None => Raise (AttributeError name)
  end.

(** [if hasattr(self, name): return getattr(self, name)], and [None] when the
    function falls off its end. *)
Definition guarded_attr (self : gmap string (attr_value V)) (name : string)
    : result (attr_value V) :=
  if hasattr self name then getattr self name else Ok (Value None).

Definition element_id (self : gmap string (attr_value V)) : result (attr_value V) :=
  guarded_attr self "element_id_property".

Definition _start_node_element_id (self : gmap string (attr_value V))
    : result (attr_value V) :=
  guarded_attr self "_start_node_element_id_property".

Definition _end_node_element_id (self : gmap string (attr_value V))
    : result (attr_value V) :=
  guarded_attr self "_end_node_element_id_property".

(** [try: return int(getattr(self, name))
     except (TypeError, ValueError) as exc: raise ValueError(NOTICE) from exc] *)
Definition legacy_id (self : gmap string (attr_value V)) (name : string) : result Z :=
  match a ← getattr self name; py_int a with
  | Ok n => Ok n
  | Raise exc =>
      if is_TypeError_or_ValueError exc
      then Raise (ValueError ELEMENT_ID_MIGRATION_NOTICE)
      else Raise exc
  end.

Definition id (self : gmap string (attr_value V)) : result Z :=
  legacy_id self "element_id_property".

Definition _start_node_id (self : gmap string (attr_value V)) : result Z :=
  legacy_id self "_start_node_element_id_property".

Definition _end_node_id (self : gmap string (attr_value V)) : result Z :=
  legacy_id self "_end_node_element_id_property".

(** *** [AsyncStructuredRel.inflate] *)

(** A relationship as the driver returns it: its properties, its own element
    id and the element ids of its two end nodes. *)
Record raw_relationship := {
  rel_properties : gmap string (option W);
  rel_element_id : option V;
  rel_start_node_element_id : option V;
  rel_end_node_element_id : option V
}.

Definition AsyncStructuredRel_inflate (cls : klass V W O)
    (base_init : gmap string (option V) -> gmap string (attr_value V))
    (rel : raw_relationship) : result (gmap string (attr_value V)) :=
  srel ← inflate cls base_init (rel_properties rel);
  let srel := <["_start_node_element_id_property" :=
                  Value (rel_start_node_element_id rel)]> srel in
  let srel := <["_end_node_element_id_property" :=
                  Value (rel_end_node_element_id rel)]> srel in
  let srel := <["element_id_property" := Value (rel_element_id rel)]> srel in
  Ok srel.

End Relationship.
Arguments class_entry : clear implicits.
Arguments rel_class : clear implicits.
Arguments raw_relationship : clear implicits.

(** ** Spatial values ([neomodantic/contrib/spatial_properties.py]) *)

Definition ACCEPTABLE_CRS : list string :=
  ["cartesian"; "cartesian-3d"; "wgs-84"; "wgs-84-3d"].

Definition SRID_TO_CRS : gmap Z string :=
  <[7203 := "cartesian"]> (<[9157 := "cartesian-3d"]>
  (<[4326 := "wgs-84"]> (<[4979 := "wgs-84-3d"]> ∅))).

(** [sep.join(l)] *)
Fixpoint join (sep : string) (l : list string) : string :=
  match l with
  | [] => ""
  | [s] => s
  | s :: l' => s +:+ sep +:+ join sep l'
  end.

(** [sub in s] on strings *)
Fixpoint contains (sub s : string) : bool :=
  String.prefix sub s
  || match s with
     | EmptyString => false
     | String _ s' => contains sub s'
     end.

(** [s.startswith(prefix)] *)
Definition startswith (s prefix : string) : bool := String.prefix prefix s.

(** The double-quote character, for messages that contain it. *)
Definition dquote : string := String (Ascii.ascii_of_nat 34) EmptyString.

(** [str(n)] for an integer and for an optional integer *)
Definition str_int (n : Z) : string := pretty n.

Definition str_opt_int (n : option Z) : string :=
  match n with
  | Some n => str_int n
  | None => "None"
  end.

Section Spatial.
(** Python floats are carried around but never computed with: [pyfloat] is
    their type and [float_of_int] the conversion [float(n)] of an integer. *)
Context {pyfloat : Type}.
Variable float_of_int : Z -> pyfloat.

(** A number given as a coordinate. *)
Inductive num :=
| NInt (n : Z)
| NFloat (f : pyfloat).

(** [float(v)] *)
Definition float (v : option num) : result pyfloat :=
  match v with
  | Some (NInt n) => Ok (float_of_int n)
  | Some (NFloat f) => Ok f
  | None =>
      Raise (TypeError
        "float() argument must be a string or a real number, not 'NoneType'")
  end.

(** A constructed point: its CRS tag and the coordinate tuple
    [_shapely_point.coords[0]]. *)
Record NeomodelPoint := {
  _crs : string;
  coords : list pyfloat
}.

(** The first positional argument: a tuple or list, a shapely point (by its
    coordinate tuple), a [NeomodelPoint], or another object (by the text of
    its type). *)
Inductive positional :=
| Sequence (items : list (option num))
| ShapelyPoint (coords0 : list pyfloat)
| APoint (p : NeomodelPoint)
| AnObject (type_repr : string).

(** The keyword arguments popped at the start of [__init__]. *)
Record point_kwargs := {
  kw_crs : option string;
  kw_x : option num;
  kw_y : option num;
  kw_z : option num;
  kw_longitude : option num;
  kw_latitude : option num;
  kw_height : option num
}.

Definition no_kwargs : point_kwargs :=
  {| kw_crs := None; kw_x := None; kw_y := None; kw_z := None;
     kw_longitude := None; kw_latitude := None; kw_height := None |}.

Definition not_None {A} (o : option A) : bool :=
  match o with Some _ => true | None => false end.

(** [sub in crs] where [crs] may still be [None] *)
Definition in_crs (sub : string) (crs : option string) : result bool :=
  match crs with
  | Some c => Ok (contains sub c)
  | None => Raise (TypeError "argument of type 'NoneType' is not iterable")
  end.

(** [__init__] from the mutual-exclusion test on: [crs] is [self._crs] as
    set so far. *)
Definition init_named (crs : option string)
    (x y z longitude latitude height : option num) : result NeomodelPoint :=
  if (not_None x || not_None y || not_None z)
     && (not_None latitude || not_None longitude || not_None height) then
    Raise (ValueError
      "Invalid instantiation via arguments. A Point can be defined either by x,y,z coordinates OR latitude,longitude,height but not a combination of these terms")
  else if negb (not_None x || not_None y || not_None z
                || not_None latitude || not_None longitude || not_None height) then
    Raise (ValueError
      "Invalid instantiation via no arguments. A Point needs default values either in x,y,z or longitude, latitude, height coordinates")
  else
    (* geographical point initialisation *)
    let '(crs, _x, _y, _z) :=
      if not_None latitude && not_None longitude then
        if not_None height
        then (Some (default "wgs-84-3d" crs), longitude, latitude, height)
        else (Some (default "wgs-84" crs), longitude, latitude, None)
      else (crs, None, None, None) in
    (* geometrical point initialisation *)
    let '(crs, _x, _y, _z) :=
      if not_None x && not_None y then
        if not_None z
        then (Some (default "cartesian-3d" crs), x, y, z)
        else (Some (default "cartesian" crs), x, y, _z)
      else (crs, _x, _y, _z) in
    match _z with
    | None =>
        is3d ← in_crs "-3d" crs;
        if negb is3d then
          fx ← float _x; fy ← float _y;
          Ok {| _crs := default "" crs; coords := [fx; fy] |}
        else
          Raise (ValueError ("Invalid vector dimensions(2) for given CRS("
                             +:+ default "" crs +:+ ")."))
    | Some _ =>
        is3d ← in_crs "-3d" crs;
        if (is3d : bool) then
          fx ← float _x; fy ← float _y; fz ← float _z;
          Ok {| _crs := default "" crs; coords := [fx; fy; fz] |}
        else
          Raise (ValueError ("Invalid vector dimensions(3) for given CRS("
                             +:+ default "" crs +:+ ")."))
    end.

(** [NeomodelPoint.__init__], from its positional and keyword arguments *)
Definition NeomodelPoint_init (args : list positional) (kw : point_kwargs)
    : result NeomodelPoint :=
  let crs := kw_crs kw in
  if match crs with
     | Some c => negb (bool_decide (c ∈ ACCEPTABLE_CRS))
     | None => false
     end then
    Raise (ValueError ("Invalid CRS(" +:+ default "" crs
                       +:+ "). Expected one of " +:+ join "," ACCEPTABLE_CRS))
  else
    match args with
    | Sequence items :: _ =>
        if bool_decide (length items < 2)%nat || bool_decide (3 < length items)%nat then
          Raise (ValueError ("Invalid vector dimensions. Expected 2 or 3, received "
                             +:+ str_int (Z.of_nat (length items))))
        else
          let x := mjoin (items !! 0%nat) in
          let y := mjoin (items !! 1%nat) in
          let z := if bool_decide (length items = 3%nat)
                   then mjoin (items !! 2%nat) else kw_z kw in
          init_named crs x y z (kw_longitude kw) (kw_latitude kw) (kw_height kw)
    | ShapelyPoint coords0 :: _ =>
        if bool_decide (length coords0 = 2%nat) then
          Ok {| _crs := default "cartesian" crs; coords := coords0 |}
        else if bool_decide (length coords0 = 3%nat) then
          Ok {| _crs := default "cartesian-3d" crs; coords := coords0 |}
        else
          Raise (ValueError ("Invalid vector dimensions. Expected 2 or 3, received "
                             +:+ str_int (Z.of_nat (length coords0))))
    | APoint p :: _ =>
        Ok {| _crs := _crs p; coords := coords p |}
    | AnObject type_repr :: _ =>
        Raise (TypeError
          ("Invalid object passed to copy constructor. Expected NeomodelPoint or shapely Point, received "
           +:+ type_repr))
    | [] =>
        init_named crs (kw_x kw) (kw_y kw) (kw_z kw)
                   (kw_longitude kw) (kw_latitude kw) (kw_height kw)
    end.

(** *** Axis accessors *)

(** [_shapely_point.x], [.y], [.z]: the coordinate at an index; shapely
    raises when the point has no such coordinate. *)
Definition shapely_axis (p : NeomodelPoint) (i : nat) : result pyfloat :=
  match coords p !! i with
  | Some f => Ok f
  | None => Raise (LibraryError "DimensionError" "This point has no such coordinate")
  end.

Definition invalid_coordinate (axis : string) (p : NeomodelPoint) : exn :=
  TypeError ("Invalid coordinate (" +:+ dquote +:+ axis +:+ dquote
             +:+ ") for points defined over " +:+ _crs p).

Definition crs (p : NeomodelPoint) : string := _crs p.

Definition x (p : NeomodelPoint) : result pyfloat :=
  if negb (startswith (_crs p) "cartesian")
  then Raise (invalid_coordinate "x" p) else shapely_axis p 0.

Definition y (p : NeomodelPoint) : result pyfloat :=
  if negb (startswith (_crs p) "cartesian")
  then Raise (invalid_coordinate "y" p) else shapely_axis p 1.

Definition z (p : NeomodelPoint) : result pyfloat :=
  if negb (bool_decide (_crs p = "cartesian-3d"))
  then Raise (invalid_coordinate "z" p) else shapely_axis p 2.

Definition latitude (p : NeomodelPoint) : result pyfloat :=
  if negb (startswith (_crs p) "wgs-84")
  then Raise (invalid_coordinate "latitude" p) else shapely_axis p 1.

Definition longitude (p : NeomodelPoint) : result pyfloat :=
  if negb (startswith (_crs p) "wgs-84")
  then Raise (invalid_coordinate "longitude" p) else shapely_axis p 0.

Definition height (p : NeomodelPoint) : result pyfloat :=
  if negb (bool_decide (_crs p = "wgs-84-3d"))
  then Raise (invalid_coordinate "height" p) else shapely_axis p 2.

End Spatial.
Arguments num : clear implicits.
Arguments NeomodelPoint : clear implicits.
Arguments positional : clear implicits.
Arguments point_kwargs : clear implicits.

(** *** Wire points ([neo4j.spatial], the driver's types) *)

Section Wire.
Context {pyfloat : Type}.

(** A value as the driver hands it over: a [CartesianPoint] or [WGS84Point]
    (tuples whose [srid] follows from their length), a plain [Point] carrying
    whatever [srid] it was given, or something that is not a point (by the
    text of its type). *)
Inductive wire :=
| CartesianPoint (cs : list pyfloat)
| WGS84Point (cs : list pyfloat)
| Point (srid : option Z) (cs : list pyfloat)
| NotAPoint (type_repr : string).

Definition isinstance_Point (value : wire) : bool :=
  match value with
  | NotAPoint _ => false
  | _ => true
  end.

Definition srid (value : wire) : option Z :=
  match value with
  | CartesianPoint cs =>
      match length cs with
      | 2%nat => Some 7203
      | 3%nat => Some 9157
      | _ => None
      end
  | WGS84Point cs =>
      match length cs with
      | 2%nat => Some 4326
      | 3%nat => Some 4979
      | _ => None
      end
  | Point s _ => s
  | NotAPoint _ => None
  end.

(** The coordinate accessors the driver generates: [x], [y], [z] on both
    point classes, [longitude], [latitude], [height] on [WGS84Point]. *)
Definition wire_axis (value : wire) (geographic : bool) (name : string) (i : nat)
    : result (option (num pyfloat)) :=
  match value with
  | CartesianPoint cs =>
      if geographic then Raise (AttributeError name)
      else match cs !! i with
           | Some f => Ok (Some (NFloat f))
           | None => Raise (AttributeError name)
           end
  | WGS84Point cs =>
      match cs !! i with
      | Some f => Ok (Some (NFloat f))
      | None => Raise (AttributeError name)
      end
  | _ => Raise (AttributeError name)
  end.

(** *** [PointProperty] *)

Record PointProperty := { pp_crs : string }.

(** The [default] keyword of the declaration, when given. *)
Inductive default_arg :=
| DefaultCallable
| DefaultPoint (p : NeomodelPoint pyfloat)
| DefaultObject (type_repr : string).

Definition PointProperty_init (crs : option string) (default : option default_arg)
    : result PointProperty :=
  match crs with
  | Some c =>
      if bool_decide (c ∈ ACCEPTABLE_CRS) then
        match default with
        | Some (DefaultObject type_repr) =>
            Raise (TypeError ("Invalid default value. Expected NeomodelPoint, received "
                              +:+ type_repr))
        | _ => Ok {| pp_crs := c |}
        end
      else
        Raise (ValueError ("Invalid CRS(" +:+ c
                           +:+ "). Point properties require CRS to be one of "
                           +:+ join "," ACCEPTABLE_CRS))
  | None =>
      Raise (ValueError ("Invalid CRS(None). Point properties require CRS to be one of "
                         +:+ join "," ACCEPTABLE_CRS))
  end.

Definition point_kw (x y z longitude latitude height : option (num pyfloat))
    : point_kwargs pyfloat :=
  {| kw_crs := None; kw_x := x; kw_y := y; kw_z := z;
     kw_longitude := longitude; kw_latitude := latitude; kw_height := height |}.

(** The body of [PointProperty.inflate]; the [validator] decorator around it
    is declared outside these sources. *)
Definition PointProperty_inflate (float_of_int : Z -> pyfloat)
    (self : PointProperty) (value : wire) (type_repr : string)
    : result (option (NeomodelPoint pyfloat)) :=
  if negb (isinstance_Point value) then
    Raise (TypeError ("Invalid datatype to inflate. Expected POINT datatype, received "
                      +:+ type_repr))
  else
    match srid value ≫= (SRID_TO_CRS !!.) with
    | None =>
        Raise (ValueError
          ("Invalid SRID to inflate. Expected one of dict_keys([7203, 9157, 4326, 4979]), received "
           +:+ str_opt_int (srid value)))
    | Some value_point_crs =>
        if negb (bool_decide (pp_crs self = value_point_crs)) then
          Raise (ValueError ("Invalid CRS. Expected POINT defined over " +:+ pp_crs self
                             +:+ ", received " +:+ value_point_crs))
        else if bool_decide (srid value = Some 7203) then
          vx ← wire_axis value false "x" 0;
          vy ← wire_axis value false "y" 1;
          Some <$> NeomodelPoint_init float_of_int [] (point_kw vx vy None None None None)
        else if bool_decide (srid value = Some 9157) then
          vx ← wire_axis value false "x" 0;
          vy ← wire_axis value false "y" 1;
          vz ← wire_axis value false "z" 2;
          Some <$> NeomodelPoint_init float_of_int [] (point_kw vx vy vz None None None)
        else if bool_decide (srid value = Some 4326) then
          vlon ← wire_axis value true "longitude" 0;
          vlat ← wire_axis value true "latitude" 1;
          Some <$> NeomodelPoint_init float_of_int [] (point_kw None None None vlon vlat None)
        else if bool_decide (srid value = Some 4979) then
          vlon ← wire_axis value true "longitude" 0;
          vlat ← wire_axis value true "latitude" 1;
          vh ← wire_axis value true "height" 2;
          Some <$> NeomodelPoint_init float_of_int [] (point_kw None None None vlon vlat vh)
        else Ok None
    end.

(** What [deflate] may be handed: a [NeomodelPoint] or another object. *)
Inductive app_value :=
| PointValue (p : NeomodelPoint pyfloat)
| ObjectValue (type_repr : string).

(** The body of [PointProperty.deflate]. *)
Definition PointProperty_deflate (self : PointProperty) (value : app_value)
    : result (option wire) :=
  match value with
  | ObjectValue type_repr =>
      Raise (TypeError ("Invalid datatype to deflate. Expected NeomodelPoint, received "
                        +:+ type_repr))
  | PointValue p =>
      if negb (bool_decide (crs p = pp_crs self)) then
        Raise (ValueError ("Invalid CRS. Expected NeomodelPoint defined over "
                           +:+ pp_crs self
                           +:+ ", received NeomodelPoint defined over " +:+ crs p))
      else if bool_decide (crs p = "cartesian-3d") then
        vx ← x p; vy ← y p; vz ← z p;
        Ok (Some (CartesianPoint [vx; vy; vz]))
      else if bool_decide (crs p = "cartesian") then
        vx ← x p; vy ← y p;
        Ok (Some (CartesianPoint [vx; vy]))
      else if bool_decide (crs p = "wgs-84") then
        vlon ← longitude p; vlat ← latitude p;
        Ok (Some (WGS84Point [vlon; vlat]))
      else if bool_decide (crs p = "wgs-84-3d") then
        vlon ← longitude p; vlat ← latitude p; vh ← height p;
        Ok (Some (WGS84Point [vlon; vlat; vh]))
      else Ok None
  end.

End Wire.
Arguments wire : clear implicits.
Arguments app_value : clear implicits.
Arguments default_arg : clear implicits.

(** ** Vocabulary of the statements *)

Section Vocabulary.
Context {V W O : Type}.

(** An object that [defined_properties] collects under its default flags. *)
Definition is_descriptor (d : descriptor V W O) : bool :=
  is_AliasProperty d || is_Property d || is_RelationshipDefinition d.

(** The descriptor a namespace binds to [name], if it binds one. *)
Definition declared_in (ns : list (string * descriptor V W O)) (name : string)
    : option (descriptor V W O) :=
  d ← Dict.get name ns; if is_descriptor d then Some d else None.

(** The descriptor a class itself declares for [name]: through a model field
    or through a plain class attribute. *)
Definition class_declares (c : pyclass V W O) (name : string)
    : option (descriptor V W O) :=
  match cls_model_fields c ≫= (fun fields => declared_in fields name) with
  | Some d => Some d
  | None => declared_in (cls_vars c) name
  end.

(** The declaration of [name] by the most derived class of an MRO (most
    derived first) that declares it. *)
Fixpoint most_derived_declaration (mro : list (pyclass V W O)) (name : string)
    : option (descriptor V W O) :=
  match mro with
  | [] => None
  | c :: mro' =>
      match class_declares c name with
      | Some d => Some d
      | None => most_derived_declaration mro' name
      end
  end.

(** Namespaces and [model_fields] are dicts: no key occurs twice. *)
Definition wf_class (c : pyclass V W O) : Prop :=
  NoDup (Dict.keys (cls_vars c))
  /\ forall fields, cls_model_fields c = Some fields -> NoDup (Dict.keys fields).

(** The wire name under which a resolved property is emitted. *)
Definition wire_name (np : string * descriptor V W O) : string :=
  get_db_property_name np.2 np.1.

(** What one resolved property contributes to the output of [deflate]: the
    value emitted under its wire name, [None] when the key is left out. *)
Definition entry_emit (cls : klass V W O) (properties : gmap string (option V))
    (obj : option O) (skip_empty : bool) (np : string * descriptor V W O)
    : result (option (option W)) :=
  match bag_get properties np.1 with
  | Some v => w ← prop_deflate np.2 (Some v) obj; Ok (Some w)
  | None =>
      if has_default np.2 then
        d ← default_value np.2; w ← prop_deflate np.2 d obj; Ok (Some w)
      else if required np.2 then Raise (RequiredProperty np.1 (k_name cls))
      else if skip_empty then Ok None
      else Ok (Some None)
  end.

Definition apply_emit (key : string) (e : option (option W))
    (deflated : gmap string (option W)) : gmap string (option W) :=
  match e with
  | Some w => <[key := w]> deflated
  | None => deflated
  end.

(** The property does not make [deflate] fail: it has a value other than
    [None] in the bag and its descriptor deflates it; or it has no such
    value and has a default that materialises and that its descriptor
    deflates; or it has neither and is not required. *)
Definition entry_accepted (properties : gmap string (option V)) (obj : option O)
    (np : string * descriptor V W O) : Prop :=
  match properties !! np.1 with
  | Some (Some v) => exists w, prop_deflate np.2 (Some v) obj = Ok w
  | _ =>
      if has_default np.2 then
        exists d w, default_value np.2 = Ok d /\ prop_deflate np.2 d obj = Ok w
      else required np.2 = false
  end.

(** [name] is not the display accessor that [__init__] synthesises for the
    property [np]. *)
Definition display_free (name : string) (np : string * descriptor V W O) : Prop :=
  choices np.2 = true -> "get_" +:+ np.1 +:+ "_display" <> name.

End Vocabulary.

(** ** Concrete classes used to exercise the statements *)

(** A property over integers whose validators accept every value. *)
Definition int_property (req has_dflt : bool) (dflt : option Z) (db : option string)
    : descriptor Z Z unit :=
  {| is_Property := true; is_AliasProperty := false;
     is_RelationshipDefinition := false;
     db_property := db; has_default := has_dflt; required := req;
     choices := false; default_value := Ok dflt;
     prop_deflate := fun v _ => Ok v;
     prop_inflate := fun w _ => Ok w;
     setup := None |}.

Definition object_class : pyclass Z Z unit :=
  {| cls_vars := []; cls_model_fields := None |}.

(** [class Person: name = Property(required); age = Property(default=18, db "years")] *)
Definition person_class : pyclass Z Z unit :=
  {| cls_vars := [];
     cls_model_fields :=
       Some [("name", int_property true false None None);
             ("age", int_property false true (Some 18) (Some "years"))] |}.

(** [class Employee(Person)] redeclares [name] (now optional) and adds
    [badge]; its [model_fields] list the inherited [age] as well. *)
Definition employee_class : pyclass Z Z unit :=
  {| cls_vars := [];
     cls_model_fields :=
       Some [("name", int_property false false None None);
             ("age", int_property false true (Some 18) (Some "years"));
             ("badge", int_property true true (Some 7) None)] |}.

(** [class NamedMixin: name = Property(required=True)], a plain class, and
    [class Contractor(PropertyManager, NamedMixin)], which declares nothing
    itself. *)
Definition named_mixin_class : pyclass Z Z unit :=
  {| cls_vars := [("name", int_property true false None None)];
     cls_model_fields := None |}.

Definition contractor_class : pyclass Z Z unit :=
  {| cls_vars := []; cls_model_fields := Some [] |}.

Definition NamedMixin : klass Z Z unit :=
  {| k_name := "NamedMixin"; k_mro := [named_mixin_class; object_class];
     k_all_properties := None; k_all_aliases := None |}.

Definition Contractor : klass Z Z unit :=
  {| k_name := "Contractor";
     k_mro := [contractor_class; named_mixin_class; object_class];
     k_all_properties := None; k_all_aliases := None |}.

Definition Person : klass Z Z unit :=
  {| k_name := "Person"; k_mro := [person_class; object_class];
     k_all_properties := None; k_all_aliases := None |}.

Definition Employee : klass Z Z unit :=
  {| k_name := "Employee"; k_mro := [employee_class; person_class; object_class];
     k_all_properties := None; k_all_aliases := None |}.

(** A bag that sets [name] and nothing else. *)
Definition name_only_bag : gmap string (option Z) := {[ "name" := Some 5 ]}.

(** The builtin [int()] on what the example instances hold. *)
Definition int_of_attr (a : attr_value Z) : result Z :=
  match a with
  | Value (Some n) => Ok n
  | Value None =>
      Raise (TypeError
        "int() argument must be a string, a bytes-like object or a real number, not 'NoneType'")
  | DisplayMethod _ =>
      Raise (TypeError
        "int() argument must be a string, a bytes-like object or a real number, not 'method'")
  end.

(** The body of [class Friend(AsyncStructuredRel): since = Property(); id = Property()] *)
Definition friend_body : list (string * descriptor Z Z unit) :=
  [("since", int_property false false None None);
   ("id", int_property false false None None)].

(** ** Vocabulary of the spatial statements *)

Definition cartesian_family (c : string) : Prop :=
  c = "cartesian" \/ c = "cartesian-3d".

Definition geographic_family (c : string) : Prop :=
  c = "wgs-84" \/ c = "wgs-84-3d".

(** The CRS tag is one of the four and agrees with the number of
    coordinates. *)
Definition well_formed {pyfloat : Type} (p : NeomodelPoint pyfloat) : Prop :=
  _crs p ∈ ACCEPTABLE_CRS
  /\ length (coords p) = if contains "-3d" (_crs p) then 3%nat else 2%nat.

Definition xy_kwargs {pyfloat : Type} (vx vy : Z) : point_kwargs pyfloat :=
  {| kw_crs := None; kw_x := Some (NInt vx); kw_y := Some (NInt vy); kw_z := None;
     kw_longitude := None; kw_latitude := None; kw_height := None |}.

Definition lonlat_kwargs {pyfloat : Type} (lon lat : Z) : point_kwargs pyfloat :=
  {| kw_crs := None; kw_x := None; kw_y := None; kw_z := None;
     kw_longitude := Some (NInt lon); kw_latitude := Some (NInt lat);
     kw_height := None |}.

Definition crs_kwargs {pyfloat : Type} (c : string) : point_kwargs pyfloat :=
  {| kw_crs := Some c; kw_x := None; kw_y := None; kw_z := None;
     kw_longitude := None; kw_latitude := None; kw_height := None |}.

(** The names the relationship metaclass keeps for itself. *)
Definition reserved_name (key : string) : Prop :=
  key = "source" \/ key = "target" \/ key = "id" \/ key = "element_id".

(** What [Employee(name=5)] holds once [__init__] has run. *)
Definition direct_instance : gmap string (attr_value Z) :=
  <["name" := Value (Some 5)]>
    (<["age" := Value (Some 18)]> (<["badge" := Value (Some 7)]> ∅)).

(** ** Vocabulary of the further statements *)

Section MoreVocabulary.
Context {V W O : Type}.

(** The object is of one of the kinds the flags ask for. *)
Definition kind_selected (aliases properties rels : bool) (d : descriptor V W O) : bool :=
  (aliases && is_AliasProperty d)
  || (properties && is_Property d)
  || (rels && is_RelationshipDefinition d).

(** The class binds [name] to [d], as a class attribute or as the default of
    a model field. *)
Definition binds (c : pyclass V W O) (name : string) (d : descriptor V W O) : Prop :=
  (name, d) ∈ cls_vars c
  \/ exists fields, cls_model_fields c = Some fields /\ (name, d) ∈ fields.

End MoreVocabulary.

(** An empty bag. *)
Definition empty_bag : gmap string (option Z) := ∅.

Section MetaclassVocabulary.
Context {V W O : Type}.



End MetaclassVocabulary.

Section SpatialVocabulary.
Context {pyfloat : Type}.
Variable float_of_int : Z -> pyfloat.

(** The float a given number converts to. *)
Definition float_of (n : num pyfloat) : pyfloat :=
  match n with
  | NInt k => float_of_int k
  | NFloat f => f
  end.

(** [__copy__] and [__deepcopy__]: both are [NeomodelPoint(self)]. *)
Definition NeomodelPoint_copy (self : NeomodelPoint pyfloat)
    : result (NeomodelPoint pyfloat) :=
  NeomodelPoint_init float_of_int [APoint self] no_kwargs.

Definition NeomodelPoint_deepcopy (self : NeomodelPoint pyfloat)
    : result (NeomodelPoint pyfloat) :=
  NeomodelPoint_init float_of_int [APoint self] no_kwargs.

(** An explicit CRS, if any, is one of the four. *)
Definition crs_acceptable (crs : option string) : Prop :=
  match crs with
  | Some c => c ∈ ACCEPTABLE_CRS
  | None => True
  end.

(** The construction is not a copy of a shapely point under an explicit
    CRS, and a point that is copied is itself well formed. *)
Definition arity_checked (args : list (positional pyfloat))
    (kw : point_kwargs pyfloat) : Prop :=
  match args with
  | ShapelyPoint _ :: _ => kw_crs kw = None
  | APoint q :: _ => well_formed q
  | _ => True
  end.

End SpatialVocabulary.

(** ** Further concrete data *)

(** What [Employee] resolves to for [deflate], [inflate] and [__init__]. *)
Definition Employee_schema : list (string * descriptor Z Z unit) :=
  [("name", int_property false false None None);
   ("age", int_property false true (Some 18) (Some "years"));
   ("badge", int_property true true (Some 7) None)].

Definition Person_schema : list (string * descriptor Z Z unit) :=
  [("name", int_property true false None None);
   ("age", int_property false true (Some 18) (Some "years"))].

(** An alias in the style of [class AliasProperty(property, Property)]. *)
Definition alias_property : descriptor Z Z unit :=
  {| is_Property := true; is_AliasProperty := true;
     is_RelationshipDefinition := false;
     db_property := None; has_default := false; required := false;
     choices := false; default_value := Ok None;
     prop_deflate := fun v _ => Ok v;
     prop_inflate := fun w _ => Ok w;
     setup := None |}.

(** [name_only_bag] with a key the class does not define. *)
Definition nickname_bag : gmap string (option Z) :=
  <["nickname" := Some 9]> name_only_bag.

(** [BaseModel.__init__] under [extra='allow'], keeping every keyword. *)
Definition store_keywords (kwargs : gmap string (option Z)) : gmap string (attr_value Z) :=
  Value <$> kwargs.

(** A raw entity with [name] and the wire name [years] of [age]. *)
Definition employee_entity : gmap string (option Z) :=
  <["name" := Some 5]> (<["years" := Some 30]> ∅).

Definition inflated_instance : gmap string (attr_value Z) :=
  <["name" := Value (Some 5)]>
    (<["age" := Value (Some 30)]> (<["badge" := Value (Some 7)]> ∅)).

(** A raw relationship 42 from node 1 to node 2. *)
Definition friend_edge : raw_relationship Z Z :=
  {| rel_properties := employee_entity;
     rel_element_id := Some 42;
     rel_start_node_element_id := Some 1;
     rel_end_node_element_id := Some 2 |}.

Definition inflated_edge : gmap string (attr_value Z) :=
  <["element_id_property" := Value (Some 42)]>
    (<["_end_node_element_id_property" := Value (Some 2)]>
       (<["_start_node_element_id_property" := Value (Some 1)]> inflated_instance)).


(** What [Employee] deflates [name_only_bag] to. *)
Definition name_only_deflated : gmap string (option Z) :=
  <["name" := Some 5]> (<["years" := Some 18]> (<["badge" := Some 7]> ∅)).

(** * Properties *)

(** ** Facts about ordered dicts *)

Module DictFacts.
Section facts.
Context {A : Type}.
Implicit Types (d items : list (string * A)) (k n : string) (v : A).

Lemma get_set n k v d :
  Dict.get n (Dict.set k v d) = if decide (k = n) then Some v else Dict.get n d.
Proof.
  induction d as [|[k' v'] d IH]; simpl.
  - destruct (decide (k = n)); reflexivity.
  - destruct (decide (k' = k)) as [->|Hk]; simpl.
    + destruct (decide (k = n)); reflexivity.
    + destruct (decide (k' = n)) as [->|Hn].
      * destruct (decide (k = n)); [congruence | reflexivity].
      * exact IH.
Qed.

Lemma get_None n d : Dict.get n d = None <-> n ∉ Dict.keys d.
Proof.
  unfold Dict.keys. induction d as [|[k' v'] d IH]; simpl.
  - split; [intros _; apply not_elem_of_nil | reflexivity].
  - rewrite not_elem_of_cons. destruct (decide (k' = n)) as [->|Hn].
    + split; [discriminate | intros [? _]; congruence].
    + rewrite IH. split; [intros ?; split; [congruence | assumption] | intros [_ ?]; assumption].
Qed.

Lemma get_Some_elem n v d : Dict.get n d = Some v -> (n, v) ∈ d.
Proof.
  induction d as [|[k' v'] d IH]; simpl; [discriminate|].
  destruct (decide (k' = n)) as [->|Hn].
  - intros [= ->]. apply list_elem_of_here.
  - intros H. apply list_elem_of_further, IH, H.
Qed.

Lemma elem_get n v d : NoDup (Dict.keys d) -> (n, v) ∈ d -> Dict.get n d = Some v.
Proof.
  unfold Dict.keys. induction d as [|[k' v'] d IH]; simpl.
  - intros _ H. by apply elem_of_nil in H.
  - rewrite NoDup_cons. intros [Hk Hd] H. apply elem_of_cons in H as [[= -> ->]|H].
    + by rewrite decide_True.
    + rewrite decide_False; [by apply IH|].
      intros ->. apply Hk. apply (list_elem_of_fmap_2 fst) in H. exact H.
Qed.

Lemma keys_set k v d n :
  n ∈ Dict.keys (Dict.set k v d) <-> n = k \/ n ∈ Dict.keys d.
Proof.
  unfold Dict.keys. induction d as [|[k' v'] d IH]; simpl.
  - rewrite list_elem_of_singleton. split; [by left | intros [?|H]; [done|]].
    by apply elem_of_nil in H.
  - destruct (decide (k' = k)) as [->|Hk]; simpl; rewrite !elem_of_cons.
    + tauto.
    + rewrite IH. tauto.
Qed.

Lemma NoDup_set k v d : NoDup (Dict.keys d) -> NoDup (Dict.keys (Dict.set k v d)).
Proof.
  induction d as [|[k' v'] d IH]; simpl.
  - intros _. apply NoDup_singleton.
  - unfold Dict.keys in *. simpl. rewrite NoDup_cons. intros [Hk Hd].
    destruct (decide (k' = k)) as [->|Hne]; simpl; rewrite NoDup_cons.
    + split; assumption.
    + split; [|by apply IH].
      intros H. apply (keys_set k v d k') in H as [?|?]; [congruence | by apply Hk].
Qed.

Lemma NoDup_update d items :
  NoDup (Dict.keys d) -> NoDup (Dict.keys (Dict.update d items)).
Proof.
  unfold Dict.update. revert d.
  induction items as [|[k v] items IH]; intros d Hd; simpl; [assumption|].
  apply IH, NoDup_set, Hd.
Qed.

Lemma NoDup_of_items items : NoDup (Dict.keys (Dict.of_items items)).
Proof. apply NoDup_update. apply NoDup_nil_2. Qed.

Lemma get_update n d items :
  NoDup (Dict.keys items) ->
  Dict.get n (Dict.update d items)
  = match Dict.get n items with Some v => Some v | None => Dict.get n d end.
Proof.
  unfold Dict.update, Dict.keys. revert d.
  induction items as [|[k v] items IH]; intros d; simpl; [reflexivity|].
  rewrite NoDup_cons. intros [Hk Hitems]. rewrite IH by assumption.
  destruct (decide (k = n)) as [->|Hn].
  - apply get_None in Hk. rewrite Hk, get_set. by rewrite decide_True.
  - rewrite get_set. by rewrite decide_False.
Qed.

Lemma get_of_items n items :
  NoDup (Dict.keys items) -> Dict.get n (Dict.of_items items) = Dict.get n items.
Proof.
  intros H. unfold Dict.of_items. rewrite get_update by assumption.
  by destruct (Dict.get n items).
Qed.

Lemma NoDup_filter (f : string * A -> bool) items :
  NoDup (Dict.keys items) -> NoDup (Dict.keys (List.filter f items)).
Proof.
  unfold Dict.keys. induction items as [|[k v] items IH]; simpl; [done|].
  rewrite NoDup_cons. intros [Hk Hitems]. destruct (f (k, v)); simpl.
  - rewrite NoDup_cons. split; [|by apply IH].
    intros H. apply Hk. apply list_elem_of_fmap in H as [[k' v'] [-> H]].
    apply list_elem_of_In, filter_In in H as [H _]. apply list_elem_of_In in H.
    apply (list_elem_of_fmap_2 fst) in H. exact H.
  - by apply IH.
Qed.

Lemma get_filter (f : A -> bool) n items :
  NoDup (Dict.keys items) ->
  Dict.get n (List.filter (fun np => f np.2) items)
  = (v ← Dict.get n items; if f v then Some v else None).
Proof.
  unfold Dict.keys. induction items as [|[k v] items IH]; simpl; [done|].
  rewrite NoDup_cons. intros [Hk Hitems]. specialize (IH Hitems).
  destruct (f v) eqn:Hf; simpl.
  - destruct (decide (k = n)) as [->|Hn]; simpl; [by rewrite Hf | exact IH].
  - destruct (decide (k = n)) as [->|Hn]; simpl; [|exact IH].
    rewrite Hf, IH. apply get_None in Hk. by rewrite Hk.
Qed.

End facts.
End DictFacts.

Section MoreDictFacts.
Context {A : Type}.
Implicit Types (d items : list (string * A)) (k : string) (v : A).

Lemma elem_of_set k v d kv : kv ∈ Dict.set k v d -> kv = (k, v) \/ kv ∈ d.
Proof.
  induction d as [|[k' v'] d IH]; simpl.
  - intros H. apply list_elem_of_singleton in H. by left.
  - destruct (decide (k' = k)) as [->|Hne]; intros H;
      apply elem_of_cons in H as [->|H].
    + by left.
    + right. by apply list_elem_of_further.
    + right. apply list_elem_of_here.
    + destruct (IH H) as [?|?]; [by left | right; by apply list_elem_of_further].
Qed.

Lemma elem_of_update d items kv : kv ∈ Dict.update d items -> kv ∈ d \/ kv ∈ items.
Proof.
  unfold Dict.update. revert d.
  induction items as [|[k v] items IH]; intros d; cbn [fold_left]; [by left|].
  intros H. destruct (IH _ H) as [Hd|Hitems].
  - apply elem_of_set in Hd as [->|Hd]; [right; apply list_elem_of_here | by left].
  - right. by apply list_elem_of_further.
Qed.

Lemma elem_of_of_items items kv : kv ∈ Dict.of_items items -> kv ∈ items.
Proof.
  intros H. apply elem_of_update in H as [H|H]; [by apply elem_of_nil in H | exact H].
Qed.

End MoreDictFacts.

(** ** Schema resolution *)

Section SchemaFacts.
Context {V W O : Type}.
Implicit Types (d : descriptor V W O) (c : pyclass V W O) (cls : klass V W O).
Implicit Types (props : list (string * descriptor V W O)) (name key : string).

Lemma vars_selected_all d : vars_selected true true true d = is_descriptor d.
Proof.
  unfold vars_selected, is_descriptor.
  destruct (is_AliasProperty d), (is_Property d), (is_RelationshipDefinition d);
    reflexivity.
Qed.

Lemma merge_field_keys a p r props key d :
  NoDup (Dict.keys props) -> NoDup (Dict.keys (merge_field a p r props (key, d))).
Proof.
  intros H. unfold merge_field.
  destruct (is_RelationshipDefinition d && r), (is_Property d && p),
    (is_AliasProperty d && a); auto using DictFacts.NoDup_set.
Qed.

Lemma merge_fields_keys a p r fields props :
  NoDup (Dict.keys props) ->
  NoDup (Dict.keys (fold_left (merge_field a p r) fields props)).
Proof.
  revert props. induction fields as [|[key d] fields IH]; intros props H; simpl.
  - exact H.
  - apply IH, merge_field_keys, H.
Qed.

Lemma merge_class_keys a p r props c :
  NoDup (Dict.keys props) -> NoDup (Dict.keys (merge_class a p r props c)).
Proof.
  intros H. unfold merge_class.
  destruct (cls_model_fields c) as [fields|].
  - apply merge_fields_keys, DictFacts.NoDup_update, H.
  - apply DictFacts.NoDup_update, H.
Qed.

Lemma defined_properties_cons name mro ap aa a p r c :
  defined_properties
    {| k_name := name; k_mro := c :: mro; k_all_properties := ap; k_all_aliases := aa |}
    a p r
  = merge_class a p r
      (defined_properties
         {| k_name := name; k_mro := mro; k_all_properties := ap; k_all_aliases := aa |}
         a p r) c.
Proof. unfold defined_properties. simpl. by rewrite fold_left_app. Qed.

Lemma defined_properties_mro cls a p r :
  defined_properties cls a p r
  = fold_right (fun c props => merge_class a p r props c) [] (k_mro cls).
Proof.
  unfold defined_properties. generalize (k_mro cls) as mro.
  induction mro as [|c mro IH]; simpl; [reflexivity|].
  by rewrite fold_left_app, IH.
Qed.

(** The resolved schema is a dict: every name occurs once, whatever the flags. *)
Lemma defined_properties_NoDup cls a p r :
  NoDup (Dict.keys (defined_properties cls a p r)).
Proof.
  rewrite defined_properties_mro. induction (k_mro cls) as [|c mro IH]; simpl.
  - apply NoDup_nil_2.
  - apply merge_class_keys, IH.
Qed.

Lemma merge_field_get name props key d :
  Dict.get name (merge_field true true true props (key, d))
  = if decide (key = name)
    then (if is_descriptor d then Some d else Dict.get name props)
    else Dict.get name props.
Proof.
  unfold merge_field, is_descriptor.
  destruct (is_RelationshipDefinition d), (is_Property d), (is_AliasProperty d);
    simpl; rewrite ?DictFacts.get_set; destruct (decide (key = name)); reflexivity.
Qed.

Lemma merge_fields_get name fields props :
  NoDup (Dict.keys fields) ->
  Dict.get name (fold_left (merge_field true true true) fields props)
  = match declared_in fields name with
    | Some d => Some d
    | None => Dict.get name props
    end.
Proof.
  unfold Dict.keys, declared_in. revert props.
  induction fields as [|[key d] fields IH]; intros props Hnd; [reflexivity|].
  rewrite fmap_cons in Hnd. apply NoDup_cons in Hnd as [Hkey Hfields].
  cbn [fst] in Hkey. cbn [fold_left]. rewrite IH by assumption. rewrite merge_field_get.
  cbn [Dict.get]. destruct (decide (key = name)) as [->|Hne]; [|reflexivity].
  apply DictFacts.get_None in Hkey. rewrite Hkey. simpl.
  by destruct (is_descriptor d).
Qed.

Lemma merge_vars_get name vars props :
  NoDup (Dict.keys vars) ->
  Dict.get name
    (Dict.update props
       (Dict.of_items
          (List.filter (fun np => vars_selected true true true np.2) vars)))
  = match declared_in vars name with
    | Some d => Some d
    | None => Dict.get name props
    end.
Proof.
  intros Hvars.
  rewrite DictFacts.get_update by apply DictFacts.NoDup_of_items.
  rewrite DictFacts.get_of_items
    by (apply (DictFacts.NoDup_filter (fun np => vars_selected true true true np.2)), Hvars).
  rewrite (DictFacts.get_filter (vars_selected true true true)) by assumption.
  unfold declared_in. destruct (Dict.get name vars) as [d|]; simpl; [|reflexivity].
  by rewrite vars_selected_all.
Qed.

Lemma merge_class_get name props c :
  wf_class c ->
  Dict.get name (merge_class true true true props c)
  = match class_declares c name with
    | Some d => Some d
    | None => Dict.get name props
    end.
Proof.
  intros [Hvars Hfields]. unfold merge_class, class_declares.
  destruct (cls_model_fields c) as [fields|]; simpl.
  - rewrite merge_fields_get by (by apply Hfields).
    destruct (declared_in fields name); [reflexivity|].
    by apply merge_vars_get.
  - by apply merge_vars_get.
Qed.

(** C1. Under its default flags, [defined_properties] of a class binds every
    name at most once, and binds a name exactly when some class of the
    ancestry declares it, to the descriptor of the most derived class that
    declares it: the ancestry is scanned from the root to the class itself
    and a later class's entry replaces an earlier one. *)
Theorem defined_properties_most_derived cls :
  Forall wf_class (k_mro cls) ->
  NoDup (Dict.keys (defined_properties cls true true true))
  /\ forall name,
       Dict.get name (defined_properties cls true true true)
       = most_derived_declaration (k_mro cls) name.
Proof.
  intros Hwf. split; [apply defined_properties_NoDup|].
  intros name. rewrite defined_properties_mro.
  induction Hwf as [|c mro Hc Hmro IH]; simpl; [reflexivity|].
  rewrite merge_class_get by assumption.
  destruct (class_declares c name); [reflexivity | exact IH].
Qed.

End SchemaFacts.

Lemma NoDup_by_decide (l : list string) : bool_decide (NoDup l) = true -> NoDup l.
Proof. intros H. apply bool_decide_eq_true in H. exact H. Qed.

Lemma Employee_wf : Forall wf_class (k_mro Employee).
Proof.
  repeat apply Forall_cons_2; try apply Forall_nil_2; split;
    try (intros fields [= <-]); apply NoDup_by_decide; vm_compute; reflexivity.
Defined.

(** [Employee] resolves [name] to its own redeclaration, [age] to the
    inherited descriptor, and does not know [salary]. *)
Lemma defined_properties_most_derived_witness :
  Dict.get "name" (defined_properties Employee true true true)
    = Some (int_property false false None None)
  /\ Dict.get "age" (defined_properties Employee true true true)
    = Some (int_property false true (Some 18) (Some "years"))
  /\ Dict.get "salary" (defined_properties Employee true true true) = None.
Proof.
  destruct (defined_properties_most_derived Employee Employee_wf) as [_ H].
  rewrite !H. repeat split; reflexivity.
Defined.

(** ** Deflation *)

Lemma foldM_app {A B} (f : A -> B -> result A) (a : A) (l1 l2 : list B) :
  foldM f a (l1 ++ l2) = (a' ← foldM f a l1; foldM f a' l2).
Proof.
  revert a. induction l1 as [|b l1 IH]; intros a; simpl; [reflexivity|].
  destruct (f a b) as [a'|e]; simpl; [apply IH | reflexivity].
Qed.

Section DeflateFacts.
Context {V W O : Type}.
Variables (cls : klass V W O) (properties : gmap string (option V)).
Variables (obj : option O) (skip_empty : bool).
Implicit Types (np : string * descriptor V W O) (deflated out : gmap string (option W)).

Local Abbreviation step := (deflate_entry cls properties obj skip_empty).
Local Abbreviation emit := (entry_emit cls properties obj skip_empty).

Lemma deflate_entry_emit deflated np :
  step deflated np = (e ← emit np; Ok (apply_emit (wire_name np) e deflated)).
Proof.
  destruct np as [name p]. unfold deflate_entry, entry_emit, wire_name. simpl.
  destruct (bag_get properties name) as [v|].
  - by destruct (prop_deflate p (Some v) obj).
  - destruct (has_default p).
    + destruct (default_value p) as [d|]; simpl; [|reflexivity].
      by destruct (prop_deflate p d obj).
    + destruct (required p); [reflexivity|]. by destruct skip_empty.
Qed.

Lemma deflate_entry_raises deflated np :
  raises (step deflated np) <-> raises (step ∅ np).
Proof.
  rewrite !deflate_entry_emit. destruct (emit np) as [e|e]; simpl.
  - split; intros [? [=]].
  - split; intros _; by eexists.
Qed.

Lemma fold_lookup_other l deflated out key :
  foldM step deflated l = Ok out ->
  (forall np, np ∈ l -> wire_name np <> key) ->
  out !! key = deflated !! key.
Proof.
  revert deflated. induction l as [|np l IH]; intros deflated; simpl.
  - by intros [= ->].
  - rewrite deflate_entry_emit. destruct (emit np) as [e|]; simpl; [|done].
    intros Hfold Hne. rewrite (IH _ Hfold).
    + destruct e as [w|]; simpl; [|reflexivity].
      apply lookup_insert_ne, Hne, list_elem_of_here.
    + intros np' Hin. apply Hne, list_elem_of_further, Hin.
Qed.

Lemma fold_keys l deflated out key :
  foldM step deflated l = Ok out ->
  is_Some (out !! key) ->
  is_Some (deflated !! key) \/ exists np, np ∈ l /\ key = wire_name np.
Proof.
  revert deflated. induction l as [|np l IH]; intros deflated; simpl.
  - intros [= ->]. by left.
  - rewrite deflate_entry_emit. destruct (emit np) as [e|]; simpl; [|done].
    intros Hfold Hsome. destruct (IH _ Hfold Hsome) as [Hd|[np' [Hin ->]]].
    + destruct e as [w|]; simpl in Hd; [|by left].
      destruct (decide (wire_name np = key)) as [<-|Hne].
      * right. exists np. split; [apply list_elem_of_here | reflexivity].
      * left. by rewrite lookup_insert_ne in Hd.
    + right. exists np'. split; [by apply list_elem_of_further | reflexivity].
Qed.

Lemma fold_no_failure l deflated :
  (forall np, np ∈ l -> ~ raises (step ∅ np)) ->
  exists out, foldM step deflated l = Ok out.
Proof.
  revert deflated. induction l as [|np l IH]; intros deflated Hok; simpl.
  - by eexists.
  - destruct (step deflated np) as [d'|e] eqn:Hstep; simpl.
    + apply IH. intros np' Hin. apply Hok, list_elem_of_further, Hin.
    + exfalso. apply (Hok np (list_elem_of_here _ _)).
      apply (deflate_entry_raises deflated). by eexists.
Qed.

(** The entry at a given place of the resolved list decides the output at
    its wire name when no other entry shares that name. *)
Lemma fold_lookup_entry pre post np out :
  foldM step ∅ (pre ++ np :: post) = Ok out ->
  (forall np', np' ∈ pre ++ post -> wire_name np' <> wire_name np) ->
  exists e, emit np = Ok e /\ out !! wire_name np = e.
Proof.
  rewrite foldM_app. destruct (foldM step ∅ pre) as [d1|] eqn:Hpre; simpl; [|done].
  rewrite deflate_entry_emit. destruct (emit np) as [e|]; simpl; [|done].
  intros Hpost Hne. exists e. split; [reflexivity|].
  rewrite (fold_lookup_other _ _ _ _ Hpost)
    by (intros np' Hin; apply Hne, elem_of_app; by right).
  destruct e as [w|]; simpl.
  - apply lookup_insert_eq.
  - rewrite (fold_lookup_other _ _ _ _ Hpre)
      by (intros np' Hin; apply Hne, elem_of_app; by left).
    apply lookup_empty.
Qed.

Lemma fold_failure pre post np e :
  emit np = Raise e ->
  raises (foldM step ∅ (pre ++ np :: post))
  /\ ((forall np', np' ∈ pre -> ~ raises (step ∅ np')) ->
      foldM step ∅ (pre ++ np :: post) = Raise e).
Proof.
  intros Hemit. rewrite foldM_app. split.
  - destruct (foldM step ∅ pre) as [d1|e1]; simpl; [|by eexists].
    rewrite deflate_entry_emit, Hemit. by eexists.
  - intros Hok. destruct (fold_no_failure pre ∅ Hok) as [d1 ->]. simpl.
    by rewrite deflate_entry_emit, Hemit.
Qed.

End DeflateFacts.

Section DeflateTheorems.
Context {V W O : Type}.
Implicit Types (cls : klass V W O) (properties : gmap string (option V)).
Implicit Types (np : string * descriptor V W O).

Lemma split_resolved cls name (p : descriptor V W O) :
  (name, p) ∈ defined_properties cls false true false ->
  exists pre post,
    defined_properties cls false true false = pre ++ (name, p) :: post
    /\ forall np, np ∈ pre ++ post -> np.1 <> name.
Proof.
  intros Hin. pose proof (defined_properties_NoDup cls false true false) as Hnd.
  apply list_elem_of_split in Hin as (pre & post & Heq).
  exists pre, post. split; [exact Heq|].
  rewrite Heq in Hnd. unfold Dict.keys in Hnd.
  rewrite fmap_app, fmap_cons in Hnd.
  apply NoDup_app in Hnd as (_ & Hpre & Hpost). apply NoDup_cons in Hpost as [Hpost _].
  intros np Hnp Hname. apply elem_of_app in Hnp as [Hnp|Hnp].
  - apply (Hpre np.1); [by apply list_elem_of_fmap_2|].
    simpl. rewrite Hname. apply list_elem_of_here.
  - apply Hpost. simpl. rewrite <- Hname. by apply list_elem_of_fmap_2.
Qed.

(** Where an entry of the merged mapping comes from: the mapping so far, a
    class attribute that passed the generator's test, or a model field that
    passed one of the three tests. *)
Lemma merge_field_origin a p r (props : list (string * descriptor V W O))
    key (d : descriptor V W O) name d' :
  (name, d') ∈ merge_field a p r props (key, d) ->
  (name, d') ∈ props \/ ((name, d') = (key, d) /\ kind_selected a p r d = true).
Proof.
  unfold merge_field, kind_selected.
  destruct (is_RelationshipDefinition d), (is_Property d), (is_AliasProperty d),
    a, p, r; simpl; intros H;
    repeat (apply elem_of_set in H as [H|H]; [by right|]); by left.
Qed.

Lemma merge_fields_origin a p r (fields props : list (string * descriptor V W O))
    name (d : descriptor V W O) :
  (name, d) ∈ fold_left (merge_field a p r) fields props ->
  (name, d) ∈ props \/ ((name, d) ∈ fields /\ kind_selected a p r d = true).
Proof.
  revert props. induction fields as [|[key fd] fields IH]; intros props;
    cbn [fold_left]; [by left|].
  intros H. destruct (IH _ H) as [Hq|[Hfs Hk]].
  - apply merge_field_origin in Hq as [?|[[= -> ->] Hk]]; [by left|].
    right. split; [apply list_elem_of_here | exact Hk].
  - right. split; [by apply list_elem_of_further | exact Hk].
Qed.

Lemma merge_class_origin a p r (props : list (string * descriptor V W O))
    (c : pyclass V W O) name (d : descriptor V W O) :
  (name, d) ∈ merge_class a p r props c ->
  (name, d) ∈ props
  \/ ((name, d) ∈ cls_vars c /\ vars_selected a p r d = true)
  \/ (exists fields, cls_model_fields c = Some fields /\ (name, d) ∈ fields
                     /\ kind_selected a p r d = true).
Proof.
  unfold merge_class.
  assert (forall q : list (string * descriptor V W O),
            (name, d) ∈ Dict.update q
               (Dict.of_items
                  (List.filter (fun np => vars_selected a p r np.2) (cls_vars c))) ->
            (name, d) ∈ q
            \/ ((name, d) ∈ cls_vars c /\ vars_selected a p r d = true)) as Hvars.
  { intros q H. apply elem_of_update in H as [H|H]; [by left|].
    apply elem_of_of_items, list_elem_of_In, filter_In in H as [Hin Hsel].
    right. split; [by apply list_elem_of_In | exact Hsel]. }
  destruct (cls_model_fields c) as [fields|]; [|intros H; apply Hvars in H; tauto].
  intros H. apply merge_fields_origin in H as [Hq|[Hfs Hk]].
  - apply Hvars in Hq. tauto.
  - right. right. by exists fields.
Qed.

(** What [deflate] goes through are [Property] objects, and one of them is
    an [AliasProperty] only if it is the default of a model field: aliases
    and relationship definitions found as class attributes are left out. *)
Lemma resolved_origin cls name (d : descriptor V W O) :
  (name, d) ∈ defined_properties cls false true false ->
  is_Property d = true
  /\ (is_AliasProperty d = true ->
      exists c fields,
        c ∈ k_mro cls /\ cls_model_fields c = Some fields /\ (name, d) ∈ fields).
Proof.
  rewrite defined_properties_mro.
  induction (k_mro cls) as [|c mro IH]; simpl; intros H.
  - by apply elem_of_nil in H.
  - apply merge_class_origin in H as [H|[[Hin Hsel]|(fields & Hf & Hin & Hk)]].
    + destruct (IH H) as [Hp Ha]. split; [exact Hp|].
      intros Halias. destruct (Ha Halias) as (c' & fields & Hc' & Hf & Hin).
      exists c', fields. split; [by apply list_elem_of_further | done].
    + unfold vars_selected in Hsel. simpl in Hsel.
      rewrite orb_false_r in Hsel. apply andb_true_iff in Hsel as [Hp Hna].
      split; [exact Hp|]. intros Halias. rewrite Halias in Hna. discriminate Hna.
    + unfold kind_selected in Hk. simpl in Hk. rewrite orb_false_r in Hk.
      split; [exact Hk|]. intros _. exists c, fields.
      split; [apply list_elem_of_here | done].
Qed.

Lemma bag_get_cases properties name :
  bag_get properties name
  = match properties !! name with
    | Some (Some v) => Some v
    | _ => None
    end.
Proof. unfold bag_get. by destruct (properties !! name) as [[v|]|]. Qed.

Lemma entry_accepted_no_raise cls properties (obj : option O) skip_empty np :
  entry_accepted properties obj np
  <-> ~ raises (deflate_entry cls properties obj skip_empty ∅ np).
Proof.
  rewrite deflate_entry_emit. unfold entry_accepted, entry_emit.
  rewrite bag_get_cases.
  assert (forall A (r : result A), ~ raises r <-> exists a, r = Ok a) as Hok.
  { intros A [a|e]; split.
    - intros _. by eexists.
    - intros _ [e [=]].
    - intros H. exfalso. apply H. by eexists.
    - by intros [a [=]]. }
  assert (forall v,
            (exists w, prop_deflate np.2 v obj = Ok w)
            <-> ~ raises ((w ← prop_deflate np.2 v obj; Ok (Some w))
                          ≫= (fun e => Ok (apply_emit (wire_name np) e ∅)))) as Hdef.
  { intros v. rewrite Hok.
    destruct (prop_deflate np.2 v obj) as [w|e]; cbn [mbind result_bind]; split.
    - intros _. by eexists.
    - intros _. by eexists.
    - by intros [w [=]].
    - by intros [a [=]]. }
  assert (match properties !! np.1 with
          | Some (Some v) => exists w, prop_deflate np.2 (Some v) obj = Ok w
          | _ => if has_default np.2
                 then exists d w, default_value np.2 = Ok d
                                  /\ prop_deflate np.2 d obj = Ok w
                 else required np.2 = false
          end
          <-> ~ raises
                (match match properties !! np.1 with
                       | Some (Some v) => Some v
                       | _ => None
                       end with
                 | Some v => w ← prop_deflate np.2 (Some v) obj; Ok (Some w)
                 | None =>
                     if has_default np.2 then
                       d ← default_value np.2; w ← prop_deflate np.2 d obj; Ok (Some w)
                     else if required np.2
                          then Raise (RequiredProperty np.1 (k_name cls))
                          else if skip_empty then Ok None else Ok (Some None)
                 end ≫= (fun e => Ok (apply_emit (wire_name np) e ∅)))) as Hmain.
  { assert ((if has_default np.2
             then exists d w, default_value np.2 = Ok d /\ prop_deflate np.2 d obj = Ok w
             else required np.2 = false)
            <-> ~ raises
                  ((if has_default np.2 then
                      d ← default_value np.2; w ← prop_deflate np.2 d obj; Ok (Some w)
                    else if required np.2
                         then Raise (RequiredProperty np.1 (k_name cls))
                         else if skip_empty then Ok None else Ok (Some None))
                   ≫= (fun e => Ok (apply_emit (wire_name np) e ∅)))) as Hnone.
    { destruct (has_default np.2).
      - destruct (default_value np.2) as [d|e]; cbn [mbind result_bind].
        + rewrite <- Hdef. split.
          * intros (d' & w & [= <-] & Hw). by exists w.
          * intros [w Hw]. by exists d, w.
        + split.
          * by intros (d' & w & [=] & _).
          * intros H. exfalso. apply H. by eexists.
      - destruct (required np.2); cbn [mbind result_bind].
        + split; [done|]. intros H. exfalso. apply H. by eexists.
        + split; [|done]. intros _. destruct skip_empty; intros [e [=]]. }
    destruct (properties !! np.1) as [[v|]|]; [apply Hdef | exact Hnone | exact Hnone]. }
  exact Hmain.
Qed.

(** C2 (amended). [deflate] goes through the entries of
    [defined_properties(aliases=False, rels=False)]: each is a [Property],
    and aliases and relationship definitions found as class attributes are
    not among them.  For each entry the precedence is: a value of the bag
    that is not [None] is deflated through the descriptor; else a default,
    when the descriptor has one, is materialised and deflated, whether or
    not the descriptor is required; else a required property makes
    [deflate] fail, with [RequiredProperty] naming the property and the
    class [deflate] was called on; else the key is left out when
    [skip_empty] holds and bound to [None] when it does not.  When the other
    properties are accepted the entry alone decides whether [deflate]
    returns.  Every key of the output is the wire name of a resolved
    property. *)
Theorem deflate_precedence cls properties (obj : option O) (skip_empty : bool)
    name (p : descriptor V W O) :
  (name, p) ∈ defined_properties cls false true false ->
  let resolved := defined_properties cls false true false in
  let key := get_db_property_name p name in
  (is_Property p = true
   /\ (is_AliasProperty p = true ->
       exists c fields,
         c ∈ k_mro cls /\ cls_model_fields c = Some fields /\ (name, p) ∈ fields))
  /\ (forall out, deflate cls properties obj skip_empty = Ok out ->
        (forall k, is_Some (out !! k) -> exists np, np ∈ resolved /\ k = wire_name np)
        /\ ((forall np, np ∈ resolved -> wire_name np = key -> np = (name, p)) ->
            match properties !! name with
            | Some (Some v) =>
                exists w, prop_deflate p (Some v) obj = Ok w /\ out !! key = Some w
            | _ =>
                if has_default p then
                  exists d w, default_value p = Ok d
                              /\ prop_deflate p d obj = Ok w /\ out !! key = Some w
                else
                  required p = false
                  /\ out !! key = (if skip_empty then None else Some None)
            end))
  /\ ((forall np, np ∈ resolved -> np.1 <> name -> entry_accepted properties obj np) ->
      match properties !! name with
      | Some (Some v) =>
          forall w, prop_deflate p (Some v) obj = Ok w ->
            exists out, deflate cls properties obj skip_empty = Ok out
      | _ =>
          if has_default p then
            forall d w, default_value p = Ok d -> prop_deflate p d obj = Ok w ->
              exists out, deflate cls properties obj skip_empty = Ok out
          else if required p then
            deflate cls properties obj skip_empty
            = Raise (RequiredProperty name (k_name cls))
          else exists out, deflate cls properties obj skip_empty = Ok out
      end)
  /\ (properties !! name = None \/ properties !! name = Some None ->
      has_default p = false -> required p = true ->
      raises (deflate cls properties obj skip_empty)
      /\ forall pre post,
           resolved = pre ++ (name, p) :: post ->
           (forall np, np ∈ pre -> entry_accepted properties obj np) ->
           deflate cls properties obj skip_empty
           = Raise (RequiredProperty name (k_name cls))).
Proof.
  intros Hin resolved key.
  assert (bag_get properties name
          = match properties !! name with Some (Some v) => Some v | _ => None end)
    as Hbag by apply bag_get_cases.
  split; [by apply resolved_origin|]. split; [|split].
  - intros out Hout. split.
    + intros k Hk. unfold deflate in Hout.
      destruct (fold_keys _ _ _ _ _ _ _ k Hout Hk) as [Hempty|Hnp]; [|exact Hnp].
      rewrite lookup_empty in Hempty. by destruct Hempty.
    + intros Huniq.
      destruct (split_resolved cls name p Hin) as (pre & post & Heq & Hnames).
      unfold deflate in Hout. rewrite Heq in Hout.
      apply fold_lookup_entry in Hout as (e & Hemit & Hlookup).
      * change (wire_name (name, p)) with key in Hlookup.
        unfold entry_emit in Hemit. simpl in Hemit. rewrite Hbag in Hemit.
        assert (forall v,
                  (w ← prop_deflate p v obj; Ok (Some w)) = Ok e ->
                  exists w, prop_deflate p v obj = Ok w /\ out !! key = Some w) as Hdefl.
        { intros v Hv. destruct (prop_deflate p v obj) as [w|] eqn:Hw;
            cbn [mbind result_bind] in Hv; [|done].
          injection Hv as <-. by exists w. }
        assert ((if has_default p then
                   d ← default_value p; w ← prop_deflate p d obj; Ok (Some w)
                 else if required p then Raise (RequiredProperty name (k_name cls))
                      else if skip_empty then Ok None else Ok (Some None)) = Ok e ->
                if has_default p then
                  exists d w, default_value p = Ok d
                              /\ prop_deflate p d obj = Ok w /\ out !! key = Some w
                else required p = false
                     /\ out !! key = (if skip_empty then None else Some None)) as Hnone.
        { destruct (has_default p).
          - destruct (default_value p) as [d|] eqn:Hd; cbn [mbind result_bind]; [|done].
            intros Hv. destruct (Hdefl d Hv) as (w & Hw & Hl). by exists d, w.
          - destruct (required p); [done|]. intros Hv. split; [reflexivity|].
            destruct skip_empty; by injection Hv as <-. }
        destruct (properties !! name) as [[v|]|]; [by apply Hdefl | by apply Hnone..].
      * intros np Hnp Hwire. apply (Hnames np Hnp).
        rewrite (Huniq np); [reflexivity| |exact Hwire].
        subst resolved. rewrite Heq. apply elem_of_app in Hnp as [?|?].
        -- apply elem_of_app. by left.
        -- apply elem_of_app. right. by apply list_elem_of_further.
  - intros Hothers.
    destruct (split_resolved cls name p Hin) as (pre & post & Heq & Hnames).
    assert (forall np, np ∈ pre ->
              ~ raises (deflate_entry cls properties obj skip_empty ∅ np)) as Hpre.
    { intros np Hnp. apply entry_accepted_no_raise, Hothers.
      - subst resolved. rewrite Heq. apply elem_of_app. by left.
      - apply Hnames, elem_of_app. by left. }
    assert (~ raises (deflate_entry cls properties obj skip_empty ∅ (name, p)) ->
            exists out, deflate cls properties obj skip_empty = Ok out) as Hall.
    { intros Hself. apply fold_no_failure. intros [n' p'] Hnp.
      destruct (decide (n' = name)) as [->|Hne].
      - assert (p' = p) as ->; [|exact Hself].
        pose proof (defined_properties_NoDup cls false true false) as Hnd.
        apply (DictFacts.elem_get _ _ _ Hnd) in Hin, Hnp. congruence.
      - by apply entry_accepted_no_raise, Hothers. }
    assert (entry_accepted properties obj (name, p) ->
            exists out, deflate cls properties obj skip_empty = Ok out) as Hacc.
    { intros H. by apply Hall, entry_accepted_no_raise. }
    unfold entry_accepted in Hacc. simpl in Hacc.
    assert (((if has_default p
              then exists d w, default_value p = Ok d /\ prop_deflate p d obj = Ok w
              else required p = false) ->
             exists out, deflate cls properties obj skip_empty = Ok out) ->
            bag_get properties name = None ->
            if has_default p then
             forall d w, default_value p = Ok d -> prop_deflate p d obj = Ok w ->
               exists out, deflate cls properties obj skip_empty = Ok out
           else if required p then
             deflate cls properties obj skip_empty
             = Raise (RequiredProperty name (k_name cls))
           else exists out, deflate cls properties obj skip_empty = Ok out) as Hnone.
    { intros Hacc' Hb. destruct (has_default p) eqn:Hdef.
      - intros d w Hd Hw. apply Hacc'. by exists d, w.
      - destruct (required p) eqn:Hreq; [|by apply Hacc'].
        unfold deflate. rewrite Heq.
        apply (fold_failure cls properties obj skip_empty pre post (name, p));
          [|exact Hpre].
        unfold entry_emit. simpl. by rewrite Hb, Hdef, Hreq. }
    destruct (properties !! name) as [[v|]|].
    + intros w Hw. apply Hacc. by exists w.
    + by apply Hnone.
    + by apply Hnone.
  - intros Hmissing Hdef Hreq.
    assert (bag_get properties name = None) as Hb.
    { rewrite Hbag. by destruct Hmissing as [-> | ->]. }
    assert (entry_emit cls properties obj skip_empty (name, p)
            = Raise (RequiredProperty name (k_name cls))) as Hemit.
    { unfold entry_emit. simpl. by rewrite Hb, Hdef, Hreq. }
    split.
    + apply list_elem_of_split in Hin as (pre & post & Heq).
      unfold deflate. rewrite Heq. by apply (fold_failure _ _ _ _ pre post _ _ Hemit).
    + intros pre post Heq Hpre. unfold deflate. subst resolved. rewrite Heq.
      apply (fold_failure _ _ _ _ pre post _ _ Hemit).
      intros np Hnp. by apply entry_accepted_no_raise, Hpre.
Qed.

End DeflateTheorems.

Lemma Employee_resolved :
  defined_properties Employee false true false
  = [("name", int_property false false None None);
     ("age", int_property false true (Some 18) (Some "years"));
     ("badge", int_property true true (Some 7) None)].
Proof. reflexivity. Qed.

(** On [Employee], a bag that only sets [name]: the value 5 is emitted under
    [name], read from the bag; and [badge], required with a default, does
    not stop [deflate]. *)
Lemma deflate_precedence_witness :
  ("name", int_property false false None None)
    ∈ defined_properties Employee false true false
  /\ name_only_bag !! "name" = Some (Some 5)
  /\ exists out,
       deflate Employee name_only_bag None false = Ok out
       /\ out !! "name" = Some (Some 5).
Proof.
  assert (("name", int_property false false None None)
            ∈ defined_properties Employee false true false) as Hin.
  { rewrite Employee_resolved. apply list_elem_of_here. }
  assert (name_only_bag !! "name" = Some (Some 5)) as Hname
    by (vm_compute; reflexivity).
  split; [exact Hin|]. split; [exact Hname|].
  destruct (deflate_precedence Employee name_only_bag None false _ _ Hin)
    as (_ & Hok & Hdecides & _).
  assert (exists out, deflate Employee name_only_bag None false = Ok out) as [out Hout].
  { rewrite Hname in Hdecides. apply (Hdecides) with (w := Some 5); [|reflexivity].
    intros np Hnp Hne. rewrite Employee_resolved in Hnp.
    repeat (apply elem_of_cons in Hnp as [->|Hnp]); [by destruct Hne| | |].
    - unfold entry_accepted. replace (name_only_bag !! _) with (@None (option Z))
        by (vm_compute; reflexivity).
      simpl. by exists (Some 18), (Some 18).
    - unfold entry_accepted. replace (name_only_bag !! _) with (@None (option Z))
        by (vm_compute; reflexivity).
      simpl. by exists (Some 7), (Some 7).
    - by apply elem_of_nil in Hnp. }
  exists out. split; [exact Hout|].
  destruct (Hok out Hout) as [_ Hentry].
  rewrite Hname in Hentry. destruct Hentry as (w & Hw & Hlookup).
  - intros np Hnp Hwire. rewrite Employee_resolved in Hnp.
    repeat (apply elem_of_cons in Hnp as [->|Hnp]); try reflexivity;
      try discriminate Hwire. by apply elem_of_nil in Hnp.
  - injection Hw as <-. exact Hlookup.
Defined.

(** The class named by the error is the one [deflate] is called on, not the
    one that declares the property: [Contractor] declares nothing and takes
    the required [name] from [NamedMixin], yet a bag without [name] makes
    [deflate] raise [RequiredProperty] for ["Contractor"]. *)
Lemma deflate_precedence_counterexample :
  class_declares contractor_class "name" = None
  /\ class_declares named_mixin_class "name"
     = Some (int_property true false None None)
  /\ named_mixin_class ∈ k_mro Contractor
  /\ hd_error (k_mro NamedMixin) = Some named_mixin_class
  /\ deflate Contractor ∅ None false = Raise (RequiredProperty "name" "Contractor")
  /\ deflate Contractor ∅ None false
     <> Raise (RequiredProperty "name" (k_name NamedMixin)).
Proof.
  assert (deflate Contractor ∅ None false
          = Raise (RequiredProperty "name" "Contractor")) as H
    by (vm_compute; reflexivity).
  split; [reflexivity|]. split; [reflexivity|].
  split; [apply list_elem_of_further, list_elem_of_here|].
  split; [reflexivity|]. split; [exact H|].
  rewrite H. discriminate.
Qed.

(** ** Construction *)

Section InitFacts.
Context {V W O : Type}.
Implicit Types (np : string * descriptor V W O).
Implicit Types (kwargs : gmap string (option V)) (self : gmap string (attr_value V)).

Lemma init_property_other name np kwargs self kwargs' self' :
  np.1 <> name -> display_free name np ->
  init_property (kwargs, self) np = Ok (kwargs', self') ->
  kwargs' !! name = kwargs !! name /\ self' !! name = self !! name.
Proof.
  destruct np as [n p]. unfold display_free, init_property. simpl.
  intros Hne Hdisp Hinit.
  assert (forall s : gmap string (attr_value V),
            (if choices p then <["get_" +:+ n +:+ "_display" := DisplayMethod n]> s else s)
              !! name = s !! name) as Hchoices.
  { intros s. destruct (choices p); [|reflexivity]. by apply lookup_insert_ne, Hdisp. }
  destruct (bag_get kwargs n) as [v|].
  - simpl in Hinit. injection Hinit as <- <-.
    rewrite Hchoices, !lookup_delete_ne, lookup_insert_ne by done. done.
  - destruct (has_default p).
    + destruct (default_value p) as [d|]; simpl in Hinit; [|done].
      injection Hinit as <- <-.
      rewrite Hchoices, !lookup_delete_ne, lookup_insert_ne by done. done.
    + simpl in Hinit. injection Hinit as <- <-.
      rewrite Hchoices, !lookup_delete_ne, lookup_insert_ne by done. done.
Qed.

Lemma fold_init_other name l kwargs self kwargs' self' :
  (forall np, np ∈ l -> np.1 <> name /\ display_free name np) ->
  foldM init_property (kwargs, self) l = Ok (kwargs', self') ->
  kwargs' !! name = kwargs !! name /\ self' !! name = self !! name.
Proof.
  revert kwargs self. induction l as [|np l IH]; intros kwargs self Hl; cbn [foldM].
  - by intros [= <- <-].
  - destruct (init_property (kwargs, self) np) as [[kw1 s1]|] eqn:Hstep; simpl; [|done].
    intros Hfold.
    destruct (Hl np (list_elem_of_here _ _)) as [Hne Hdisp].
    destruct (init_property_other name np _ _ _ _ Hne Hdisp Hstep) as [Hk Hs].
    rewrite <- Hk, <- Hs. apply IH; [|exact Hfold].
    intros np' Hin. apply Hl, list_elem_of_further, Hin.
Qed.

Lemma init_property_default name (p : descriptor V W O) kwargs self kwargs' self' d :
  bag_get kwargs name = None -> has_default p = true -> default_value p = Ok d ->
  display_free name (name, p) ->
  init_property (kwargs, self) (name, p) = Ok (kwargs', self') ->
  kwargs' !! name = None /\ self' !! name = Some (Value d).
Proof.
  unfold display_free, init_property. simpl. intros -> -> -> Hdisp. simpl.
  intros [= <- <-]. split; [apply lookup_delete_eq|].
  destruct (choices p).
  - rewrite lookup_insert_ne by auto. apply lookup_insert_eq.
  - apply lookup_insert_eq.
Qed.

Lemma fold_alias_absent name (l : list (string * descriptor V W O)) kwargs self :
  kwargs !! name = None ->
  (fold_left init_alias l (kwargs, self)).1 !! name = None
  /\ (fold_left init_alias l (kwargs, self)).2 !! name = self !! name.
Proof.
  revert kwargs self. induction l as [|np l IH]; intros kwargs self Hname;
    cbn [fold_left]; [done|].
  assert ((init_alias (kwargs, self) np).1 !! name = None
          /\ (init_alias (kwargs, self) np).2 !! name = self !! name) as [Hk Hs].
  { unfold init_alias. destruct (kwargs !! np.1) as [v|] eqn:Hkey; simpl; [|done].
    assert (np.1 <> name) as Hne by (intros Heq; congruence).
    by rewrite lookup_delete_ne, lookup_insert_ne. }
  destruct (init_alias (kwargs, self) np) as [kw1 s1]. simpl in Hk, Hs.
  rewrite <- Hs. by apply IH.
Qed.

End InitFacts.

Section RequiredWithDefault.
Context {V W O : Type}.
Implicit Types (cls : klass V W O) (np : string * descriptor V W O).

Lemma bag_get_lookup (m m' : gmap string (option V)) name :
  m' !! name = m !! name -> bag_get m' name = bag_get m name.
Proof. unfold bag_get. by intros ->. Qed.

Lemma init_default_wins cls name (p : descriptor V W O) self0 kwargs d inst :
  (name, p) ∈ defined_properties cls false true false ->
  has_default p = true ->
  k_all_properties cls = None ->
  bag_get kwargs name = None ->
  default_value p = Ok d ->
  (forall np, np ∈ defined_properties cls false true false -> display_free name np) ->
  PropertyManager_init cls self0 kwargs = Ok inst ->
  inst !! name = Some (Value d).
Proof.
  intros Hin Hdef Hall Hbag Hd Hdisp. unfold PropertyManager_init. rewrite Hall.
  destruct (split_resolved cls name p Hin) as (pre & post & Heq & Hnames).
  assert (forall l : list (string * descriptor V W O),
            (forall np, np ∈ l -> np ∈ pre ++ post) ->
            forall np, np ∈ l -> np.1 <> name /\ display_free name np) as Hother.
  { intros l Hl np Hnp. split; [by apply Hnames, Hl|].
    apply Hdisp. rewrite Heq. apply Hl, elem_of_app in Hnp as [?|?].
    - apply elem_of_app. by left.
    - apply elem_of_app. right. by apply list_elem_of_further. }
  rewrite Heq, foldM_app.
  destruct (foldM init_property (kwargs, self0) pre) as [[kw1 s1]|] eqn:Hpre;
    cbn [mbind result_bind foldM]; [|done].
  apply fold_init_other with (name := name) in Hpre as [Hkw1 _];
    [|apply Hother; intros np ?; apply elem_of_app; by left].
  destruct (init_property (kw1, s1) (name, p)) as [[kw2 s2]|] eqn:Hentry;
    cbn [mbind result_bind foldM]; [|done].
  apply init_property_default with (d := d) in Hentry as [Hkw2 Hs2];
    [|by rewrite (bag_get_lookup kwargs kw1)|done|done|].
  2:{ apply Hdisp. rewrite Heq. apply elem_of_app. right. apply list_elem_of_here. }
  destruct (foldM init_property (kw2, s2) post) as [[kw3 s3]|] eqn:Hpost;
    cbn [mbind result_bind foldM]; [|done].
  apply fold_init_other with (name := name) in Hpost as [Hkw3 Hs3];
    [|apply Hother; intros np ?; apply elem_of_app; by right].
  rewrite Hkw2 in Hkw3. rewrite Hs2 in Hs3.
  set (aliases := match k_all_aliases cls with
                  | Some al => al
                  | None => defined_properties cls true false false
                  end).
  destruct (fold_alias_absent name aliases kw3 s3 Hkw3) as [Hkw4 Hs4].
  destruct (fold_left init_alias aliases (kw3, s3)) as [kw4 s4]. simpl in *.
  intros [= <-]. rewrite lookup_union_r; [congruence|].
  by rewrite lookup_fmap, Hkw4.
Qed.

Lemma deflate_default_wins cls name (p : descriptor V W O)
    (properties : gmap string (option V)) (obj : option O) skip_empty d w :
  (name, p) ∈ defined_properties cls false true false ->
  has_default p = true ->
  bag_get properties name = None ->
  default_value p = Ok d ->
  prop_deflate p d obj = Ok w ->
  (forall np, np ∈ defined_properties cls false true false -> np.1 <> name ->
     ~ raises (deflate_entry cls properties obj skip_empty ∅ np)) ->
  exists out,
    deflate cls properties obj skip_empty = Ok out
    /\ ((forall np, np ∈ defined_properties cls false true false ->
           wire_name np = get_db_property_name p name -> np = (name, p)) ->
        out !! get_db_property_name p name = Some w).
Proof.
  intros Hin Hdef Hbag Hd Hw Hothers.
  assert (entry_emit cls properties obj skip_empty (name, p) = Ok (Some w)) as Hemit.
  { unfold entry_emit. simpl. rewrite Hbag, Hdef, Hd. simpl. by rewrite Hw. }
  destruct (split_resolved cls name p Hin) as (pre & post & Heq & Hnames).
  destruct (fold_no_failure cls properties obj skip_empty
              (defined_properties cls false true false) ∅) as [out Hout].
  { intros [n' p'] Hnp. destruct (decide (n' = name)) as [->|Hne].
    - assert (p' = p) as ->.
      { pose proof (defined_properties_NoDup cls false true false) as Hnd.
        apply (DictFacts.elem_get _ _ _ Hnd) in Hin, Hnp. congruence. }
      rewrite deflate_entry_emit, Hemit. intros [e [=]].
    - by apply Hothers. }
  exists out. split; [exact Hout|]. intros Huniq.
  rewrite Heq in Hout. apply fold_lookup_entry in Hout as (e & Hemit' & Hlookup).
  - rewrite Hemit in Hemit'. injection Hemit' as <-. exact Hlookup.
  - intros np Hnp Hwire. apply (Hnames np Hnp).
    rewrite (Huniq np); [reflexivity| |exact Hwire].
    rewrite Heq. apply elem_of_app in Hnp as [?|?].
    + apply elem_of_app. by left.
    + apply elem_of_app. right. by apply list_elem_of_further.
Qed.

(** C3 (amended). For a resolved descriptor with both [required] and
    [has_default] set, the default wins at construction and at deflate time
    alike: an instance built without a value for the property holds the
    materialised default, and deflating a bag in which the property is
    missing or [None] deflates the materialised default under the property's
    wire name; [required] is not consulted, so as long as no other property
    fails, [deflate] succeeds. *)
Theorem required_with_default_uses_default cls name (p : descriptor V W O) :
  (name, p) ∈ defined_properties cls false true false ->
  required p = true ->
  has_default p = true ->
  (forall self0 kwargs d inst,
     k_all_properties cls = None ->
     bag_get kwargs name = None ->
     default_value p = Ok d ->
     (forall np, np ∈ defined_properties cls false true false -> display_free name np) ->
     PropertyManager_init cls self0 kwargs = Ok inst ->
     inst !! name = Some (Value d))
  /\ (forall (properties : gmap string (option V)) (obj : option O) skip_empty d w,
        bag_get properties name = None ->
        default_value p = Ok d ->
        prop_deflate p d obj = Ok w ->
        (forall np, np ∈ defined_properties cls false true false -> np.1 <> name ->
           ~ raises (deflate_entry cls properties obj skip_empty ∅ np)) ->
        exists out,
          deflate cls properties obj skip_empty = Ok out
          /\ ((forall np, np ∈ defined_properties cls false true false ->
                 wire_name np = get_db_property_name p name -> np = (name, p)) ->
              out !! get_db_property_name p name = Some w)).
Proof.
  intros Hin _ Hdef. split.
  - intros self0 kwargs d inst. by apply init_default_wins.
  - intros properties obj skip_empty d w. by apply deflate_default_wins.
Qed.

End RequiredWithDefault.

(** A required property with a default does not make [deflate] fail: on
    [Employee], whose [badge] is required and defaults to 7, a bag without
    [badge] deflates, and the instance built from it holds the default. *)
Lemma required_with_default_counterexample :
  ("badge", int_property true true (Some 7) None)
    ∈ defined_properties Employee false true false
  /\ required (int_property true true (Some 7) None) = true
  /\ has_default (int_property true true (Some 7) None) = true
  /\ bag_get name_only_bag "badge" = None
  /\ ~ raises (deflate Employee name_only_bag None false).
Proof.
  split; [apply list_elem_of_In; vm_compute; tauto|].
  repeat split; try reflexivity.
  intros [e He]. vm_compute in He. discriminate He.
Qed.

Lemma required_with_default_uses_default_witness :
  (exists inst,
     PropertyManager_init Employee ∅ name_only_bag = Ok inst
     /\ inst !! "badge" = Some (Value (Some 7)))
  /\ (exists out,
        deflate Employee name_only_bag None false = Ok out
        /\ out !! "badge" = Some (Some 7)).
Proof.
  assert (("badge", int_property true true (Some 7) None)
            ∈ defined_properties Employee false true false) as Hin.
  { apply list_elem_of_In. vm_compute. tauto. }
  destruct (required_with_default_uses_default Employee "badge" _ Hin eq_refl eq_refl)
    as [Hinit Hdeflate].
  split.
  - destruct (PropertyManager_init Employee ∅ name_only_bag) as [inst|e] eqn:E;
      [|by vm_compute in E].
    exists inst. split; [reflexivity|].
    apply (Hinit ∅ name_only_bag (Some 7) inst); try reflexivity; [|exact E].
    intros np Hnp Hchoices. apply list_elem_of_In in Hnp. vm_compute in Hnp.
    destruct Hnp as [<-|[<-|[<-|[]]]]; by vm_compute in Hchoices.
  - destruct (Hdeflate name_only_bag None false (Some 7) (Some 7))
      as (out & Hout & Hlookup); try reflexivity.
    + intros np Hnp Hname [e He]. apply list_elem_of_In in Hnp. vm_compute in Hnp.
      destruct Hnp as [<-|[<-|[<-|[]]]]; by vm_compute in He.
    + exists out. split; [exact Hout|]. apply Hlookup.
      intros np Hnp Hwire. apply list_elem_of_In in Hnp. vm_compute in Hnp.
      destruct Hnp as [<-|[<-|[<-|[]]]]; by vm_compute in Hwire.
Defined.

(** ** The metaclass guard *)

Section MetaclassFacts.
Context {V W O : Type}.
Implicit Types (dct : list (string * descriptor V W O)) (value : descriptor V W O).

Lemma bind_entry_reserved inst key value :
  is_Property value = true -> reserved_name key ->
  exists msg, bind_entry inst (key, value) = Raise (ValueError msg).
Proof.
  intros Hprop Hres. unfold bind_entry. rewrite Hprop.
  destruct Hres as [-> | [-> | [-> | ->]]]; by eexists.
Qed.

(** With hooks that return, the guard only ever raises [ValueError]. *)
Lemma bind_entry_error inst key value e :
  (forall hook, setup value = Some hook -> ~ raises (hook key inst)) ->
  bind_entry inst (key, value) = Raise e ->
  exists msg, e = ValueError msg.
Proof.
  intros Hhook. unfold bind_entry. destruct (is_Property value); [|done].
  repeat (case_bool_decide; [intros [= <-]; by eexists|]).
  destruct (setup value) as [hook|]; simpl; [|done].
  destruct (hook key inst) as [[]|e'] eqn:Hrun; simpl; [done|].
  exfalso. apply (Hhook hook eq_refl). by eexists.
Qed.

Lemma bind_entries_raises inst dct key value :
  (key, value) ∈ dct -> is_Property value = true -> reserved_name key ->
  raises (bind_entries inst dct).
Proof.
  intros Hin Hprop Hres. induction dct as [|kv dct IH]; [by apply elem_of_nil in Hin|].
  cbn [bind_entries]. apply elem_of_cons in Hin as [<-|Hin].
  - destruct (bind_entry_reserved inst key value Hprop Hres) as [msg ->]. by eexists.
  - destruct (bind_entry inst kv); cbn [mbind result_bind]; [|by eexists].
    destruct (IH Hin) as [e ->]. by eexists.
Qed.

Lemma bind_entries_error inst dct e :
  (forall kv hook, kv ∈ dct -> setup kv.2 = Some hook -> ~ raises (hook kv.1 inst)) ->
  bind_entries inst dct = Raise e ->
  exists msg, e = ValueError msg.
Proof.
  induction dct as [|[key value] dct IH]; intros Hhooks; cbn [bind_entries]; [done|].
  destruct (bind_entry inst (key, value)) as [b|e'] eqn:Hentry; cbn [mbind result_bind].
  - destruct (bind_entries inst dct) as [bs|e'] eqn:Hrest; cbn [mbind result_bind]; [done|].
    intros [= <-]. apply IH; [|reflexivity].
    intros kv hook Hin. by apply Hhooks, list_elem_of_further.
  - intros [= <-]. apply (bind_entry_error inst key value); [|exact Hentry].
    intros hook. apply (Hhooks (key, value)), list_elem_of_here.
Qed.

(** C5. A class body that binds a [Property] to [source], [target], [id] or
    [element_id] makes the metaclass raise: no relationship class comes into
    being, so the failure is at class definition, before any instance; with
    post-bind hooks that return, the exception is a [ValueError]. *)
Theorem reserved_property_name_fails_class_definition
    (name : string) (bases : list string) dct key value :
  (key, value) ∈ dct ->
  is_Property value = true ->
  reserved_name key ->
  raises (RelationshipMeta_new name bases dct)
  /\ ((forall kv hook, kv ∈ dct -> setup kv.2 = Some hook -> ~ raises (hook kv.1 name)) ->
      exists msg, RelationshipMeta_new name bases dct = Raise (ValueError msg)).
Proof.
  intros Hin Hprop Hres. unfold RelationshipMeta_new.
  destruct (bind_entries_raises name dct key value Hin Hprop Hres) as [e He].
  rewrite He. simpl. split; [by eexists|].
  intros Hhooks. destruct (bind_entries_error name dct e Hhooks He) as [msg ->].
  by eexists.
Qed.

End MetaclassFacts.

(** Defining [Friend] with a property called [id] raises the [ValueError]
    written for that name. *)
Lemma reserved_property_name_fails_class_definition_witness :
  raises (RelationshipMeta_new "Friend" ["RelationshipBase"] friend_body)
  /\ RelationshipMeta_new "Friend" ["RelationshipBase"] friend_body
     = Raise (ValueError RESERVED_ID).
Proof.
  split.
  - apply (reserved_property_name_fails_class_definition
             "Friend" ["RelationshipBase"] friend_body "id"
             (int_property false false None None)).
    + apply list_elem_of_In. simpl. tauto.
    + reflexivity.
    + unfold reserved_name. tauto.
  - reflexivity.
Defined.

(** ** Relationship identity *)

Section IdentityFacts.
Context {V : Type}.
Variable py_int : attr_value V -> result Z.
Implicit Types (self : gmap string (attr_value V)) (name : string).

Lemma guarded_attr_absent self name :
  self !! name = None -> guarded_attr self name = Ok (Value None).
Proof.
  intros H. unfold guarded_attr, hasattr. rewrite H.
  rewrite bool_decide_eq_false_2; [reflexivity|]. by intros [? [=]].
Qed.

Lemma guarded_attr_present self name a :
  self !! name = Some a -> guarded_attr self name = Ok a.
Proof.
  intros H. unfold guarded_attr, hasattr, getattr. rewrite H.
  rewrite bool_decide_eq_true_2; [reflexivity|]. by eexists.
Qed.

Lemma legacy_id_absent self name :
  self !! name = None -> legacy_id py_int self name = Raise (AttributeError name).
Proof. intros H. unfold legacy_id, getattr. by rewrite H. Qed.

(** An identifier that is there but that [int()] rejects with [TypeError] or
    [ValueError] gives the migration notice. *)
Lemma legacy_id_not_coercible self name a e :
  self !! name = Some a -> py_int a = Raise e ->
  is_TypeError_or_ValueError e = true ->
  legacy_id py_int self name = Raise (ValueError ELEMENT_ID_MIGRATION_NOTICE).
Proof.
  intros Ha He Hcaught. unfold legacy_id, getattr. rewrite Ha. simpl.
  by rewrite He, Hcaught.
Qed.

Lemma legacy_id_coercible self name a n :
  self !! name = Some a -> py_int a = Ok n -> legacy_id py_int self name = Ok n.
Proof.
  intros Ha Hn. unfold legacy_id, getattr. rewrite Ha. simpl. by rewrite Hn.
Qed.

(** C9. On an instance whose identity attributes were never set, the legacy
    accessors [id], [_start_node_id] and [_end_node_id] raise
    [AttributeError], not the [ValueError] carrying the migration notice:
    the attribute lookup fails inside the [try], and the handler only
    catches [TypeError] and [ValueError]. *)
Theorem legacy_id_without_attribute self :
  self !! "element_id_property" = None ->
  self !! "_start_node_element_id_property" = None ->
  self !! "_end_node_element_id_property" = None ->
  id py_int self = Raise (AttributeError "element_id_property")
  /\ _start_node_id py_int self
     = Raise (AttributeError "_start_node_element_id_property")
  /\ _end_node_id py_int self
     = Raise (AttributeError "_end_node_element_id_property")
  /\ id py_int self <> Raise (ValueError ELEMENT_ID_MIGRATION_NOTICE).
Proof.
  intros H1 H2 H3. unfold id, _start_node_id, _end_node_id.
  rewrite !legacy_id_absent by assumption. repeat split. discriminate.
Qed.

(** C10. On an instance whose identity attributes were never set, the modern
    accessors [element_id], [_start_node_element_id] and
    [_end_node_element_id] return [None]; they do not raise. *)
Theorem element_id_without_attribute self :
  self !! "element_id_property" = None ->
  self !! "_start_node_element_id_property" = None ->
  self !! "_end_node_element_id_property" = None ->
  element_id self = Ok (Value None)
  /\ _start_node_element_id self = Ok (Value None)
  /\ _end_node_element_id self = Ok (Value None).
Proof.
  intros H1 H2 H3. unfold element_id, _start_node_element_id, _end_node_element_id.
  by rewrite !guarded_attr_absent.
Qed.

End IdentityFacts.

(** [inflate] captures the three identity facets: afterwards the modern
    accessors return what the raw relationship carried. *)
Lemma inflate_captures_identity {V W O : Type} (cls : klass V W O)
    (base_init : gmap string (option V) -> gmap string (attr_value V))
    (rel : raw_relationship V W) (srel : gmap string (attr_value V)) :
  AsyncStructuredRel_inflate cls base_init rel = Ok srel ->
  element_id srel = Ok (Value (rel_element_id rel))
  /\ _start_node_element_id srel = Ok (Value (rel_start_node_element_id rel))
  /\ _end_node_element_id srel = Ok (Value (rel_end_node_element_id rel)).
Proof.
  unfold AsyncStructuredRel_inflate.
  destruct (inflate cls base_init (rel_properties rel)) as [s|]; simpl; [|done].
  intros [= <-]. unfold element_id, _start_node_element_id, _end_node_element_id.
  repeat split; apply guarded_attr_present; by simplify_map_eq.
Qed.

(** [Employee(name=5)], built directly by the application, has no identity
    attribute: [id] raises [AttributeError]. *)
Lemma legacy_id_without_attribute_witness :
  PropertyManager_init Employee ∅ name_only_bag = Ok direct_instance
  /\ id int_of_attr direct_instance = Raise (AttributeError "element_id_property")
  /\ id int_of_attr direct_instance <> Raise (ValueError ELEMENT_ID_MIGRATION_NOTICE).
Proof.
  split; [vm_compute; reflexivity|].
  destruct (legacy_id_without_attribute int_of_attr direct_instance)
    as (H1 & _ & _ & H4); [vm_compute; reflexivity..|].
  split; [exact H1 | exact H4].
Defined.

Lemma element_id_without_attribute_witness :
  PropertyManager_init Employee ∅ name_only_bag = Ok direct_instance
  /\ element_id direct_instance = Ok (Value None)
  /\ _start_node_element_id direct_instance = Ok (Value None)
  /\ _end_node_element_id direct_instance = Ok (Value None).
Proof.
  split; [vm_compute; reflexivity|].
  apply (element_id_without_attribute direct_instance); vm_compute; reflexivity.
Defined.

(** ** Spatial values *)

Section SpatialFacts.
Context {pyfloat : Type}.
Variable float_of_int : Z -> pyfloat.
Implicit Types (p : NeomodelPoint pyfloat).

(** C6. [NeomodelPoint(x=1, y=2)] is cartesian and has no [latitude];
    [NeomodelPoint(longitude=10, latitude=20)] is wgs-84 and has no [z];
    [NeomodelPoint((1,2,3), crs="cartesian-3d")] has [z] equal to 3.  In
    general [x], [y], [z] raise on a point of a geographic CRS and
    [latitude], [longitude], [height] raise on a point of a cartesian CRS:
    an accessor of the other family never returns a value. *)
Theorem axis_accessors_crs_gated :
  (exists p, NeomodelPoint_init float_of_int [] (xy_kwargs 1 2) = Ok p
             /\ crs p = "cartesian" /\ raises (latitude p))
  /\ (exists p, NeomodelPoint_init float_of_int [] (lonlat_kwargs 10 20) = Ok p
                /\ crs p = "wgs-84" /\ raises (z p))
  /\ (exists p,
        NeomodelPoint_init float_of_int
          [Sequence [Some (NInt 1); Some (NInt 2); Some (NInt 3)]]
          (crs_kwargs "cartesian-3d") = Ok p
        /\ z p = Ok (float_of_int 3))
  /\ (forall p, geographic_family (crs p) ->
        x p = Raise (invalid_coordinate "x" p)
        /\ y p = Raise (invalid_coordinate "y" p)
        /\ z p = Raise (invalid_coordinate "z" p))
  /\ (forall p, cartesian_family (crs p) ->
        latitude p = Raise (invalid_coordinate "latitude" p)
        /\ longitude p = Raise (invalid_coordinate "longitude" p)
        /\ height p = Raise (invalid_coordinate "height" p)).
Proof.
  split; [|split; [|split; [|split]]].
  - eexists. split; [reflexivity|]. split; [reflexivity|]. by eexists.
  - eexists. split; [reflexivity|]. split; [reflexivity|]. by eexists.
  - eexists. split; reflexivity.
  - intros [c cs]. unfold crs. simpl. intros [-> | ->]; repeat split.
  - intros [c cs]. unfold crs. simpl. intros [-> | ->]; repeat split.
Qed.

(** C7. Copy-construction from a shapely point keeps an explicit CRS without
    comparing it with the number of coordinates: three coordinates under
    [cartesian] and two under [cartesian-3d] are both accepted. *)
Theorem copy_constructor_skips_arity_check (a b c : pyfloat) :
  NeomodelPoint_init float_of_int [ShapelyPoint [a; b; c]] (crs_kwargs "cartesian")
  = Ok {| _crs := "cartesian"; coords := [a; b; c] |}
  /\ NeomodelPoint_init float_of_int [ShapelyPoint [a; b]] (crs_kwargs "cartesian-3d")
     = Ok {| _crs := "cartesian-3d"; coords := [a; b] |}
  /\ ~ well_formed {| _crs := "cartesian"; coords := [a; b; c] |}
  /\ ~ well_formed {| _crs := "cartesian-3d"; coords := [a; b] |}.
Proof.
  repeat split; intros [_ Hlen]; vm_compute in Hlen; discriminate Hlen.
Qed.

End SpatialFacts.

Lemma axis_accessors_crs_gated_witness :
  geographic_family (crs {| _crs := "wgs-84"; coords := [10; 20] |})
  /\ x {| _crs := "wgs-84"; coords := [10; 20] |}
     = Raise (invalid_coordinate "x" {| _crs := "wgs-84"; coords := [10; 20] |})
  /\ cartesian_family (crs {| _crs := "cartesian"; coords := [1; 2] |})
  /\ latitude {| _crs := "cartesian"; coords := [1; 2] |}
     = Raise (invalid_coordinate "latitude" {| _crs := "cartesian"; coords := [1; 2] |}).
Proof.
  destruct (axis_accessors_crs_gated (fun n : Z => n)) as (_ & _ & _ & Hgeo & Hcart).
  assert (geographic_family (crs {| _crs := "wgs-84"; coords := [10; 20] |})) as Hg
    by (left; reflexivity).
  assert (cartesian_family (crs {| _crs := "cartesian"; coords := [1; 2] |})) as Hc
    by (left; reflexivity).
  split; [exact Hg|]. split; [exact (proj1 (Hgeo _ Hg))|].
  split; [exact Hc|]. exact (proj1 (Hcart _ Hc)).
Defined.

(** ** The point property *)

Section PointPropertyFacts.
Context {pyfloat : Type}.
Variable float_of_int : Z -> pyfloat.
Implicit Types (self : PointProperty) (value : wire pyfloat) (p : NeomodelPoint pyfloat).

Lemma SRID_TO_CRS_unknown (s : Z) :
  s <> 7203 -> s <> 9157 -> s <> 4326 -> s <> 4979 -> SRID_TO_CRS !! s = None.
Proof.
  intros H1 H2 H3 H4. unfold SRID_TO_CRS.
  rewrite !lookup_insert_ne by done. apply lookup_empty.
Qed.

(** C8. Inflating a wire point whose SRID maps to a CRS other than the
    declared one raises a [ValueError] naming the expected and the received
    CRS; inflating one whose SRID is none of the four known codes raises the
    invalid-SRID [ValueError].  [PointProperty(crs="wgs-84")] given a
    cartesian point is an instance of the first. *)
Theorem inflate_checks_srid self value (type_repr : string) :
  isinstance_Point value = true ->
  (forall s received,
     srid value = Some s -> SRID_TO_CRS !! s = Some received ->
     received <> pp_crs self ->
     PointProperty_inflate float_of_int self value type_repr
     = Raise (ValueError ("Invalid CRS. Expected POINT defined over "
                          +:+ pp_crs self +:+ ", received " +:+ received)))
  /\ ((forall s, srid value = Some s ->
         s <> 7203 /\ s <> 9157 /\ s <> 4326 /\ s <> 4979) ->
      PointProperty_inflate float_of_int self value type_repr
      = Raise (ValueError
          ("Invalid SRID to inflate. Expected one of dict_keys([7203, 9157, 4326, 4979]), received "
           +:+ str_opt_int (srid value))))
  /\ (forall a b : pyfloat,
        PointProperty_inflate float_of_int {| pp_crs := "wgs-84" |}
          (CartesianPoint [a; b]) type_repr
        = Raise (ValueError
            "Invalid CRS. Expected POINT defined over wgs-84, received cartesian")).
Proof.
  intros Hpoint. split; [|split].
  - intros s received Hs Hcrs Hne. unfold PointProperty_inflate.
    rewrite Hpoint, Hs. simpl. rewrite Hcrs.
    rewrite bool_decide_eq_false_2 by congruence. reflexivity.
  - intros Hunknown. unfold PointProperty_inflate. rewrite Hpoint. simpl.
    destruct (srid value) as [s|]; simpl; [|reflexivity].
    destruct (Hunknown s eq_refl) as (H1 & H2 & H3 & H4).
    by rewrite SRID_TO_CRS_unknown.
  - intros a b. reflexivity.
Qed.

(** C4. A well-formed point of the declared CRS deflates to a wire point that
    inflates back to the same point: CRS and coordinates are preserved. *)
Theorem point_round_trip self p :
  well_formed p ->
  crs p = pp_crs self ->
  exists w,
    PointProperty_deflate self (PointValue p) = Ok (Some w)
    /\ forall type_repr,
         PointProperty_inflate float_of_int self w type_repr = Ok (Some p).
Proof.
  destruct self as [c], p as [pc cs]. unfold well_formed, crs. simpl.
  intros [Hcrs Hlen] <-. unfold ACCEPTABLE_CRS in Hcrs.
  repeat (apply elem_of_cons in Hcrs as [->|Hcrs]); [| | | |by apply elem_of_nil in Hcrs].
  - destruct cs as [|a [|b [|? ?]]]; try discriminate Hlen.
    eexists. split; [reflexivity|]. intros type_repr. reflexivity.
  - destruct cs as [|a [|b [|c [|? ?]]]]; try discriminate Hlen.
    eexists. split; [reflexivity|]. intros type_repr. reflexivity.
  - destruct cs as [|a [|b [|? ?]]]; try discriminate Hlen.
    eexists. split; [reflexivity|]. intros type_repr. reflexivity.
  - destruct cs as [|a [|b [|c [|? ?]]]]; try discriminate Hlen.
    eexists. split; [reflexivity|]. intros type_repr. reflexivity.
Qed.

End PointPropertyFacts.

(** A point tagged with an SRID of the driver's table that the property does
    not know is refused, and so is a cartesian point by a wgs-84 property. *)
Lemma inflate_checks_srid_witness :
  PointProperty_inflate (fun n : Z => n) {| pp_crs := "wgs-84" |}
    (Point (Some 12) [1; 2]) "<class 'neo4j._spatial.Point'>"
  = Raise (ValueError
      "Invalid SRID to inflate. Expected one of dict_keys([7203, 9157, 4326, 4979]), received 12")
  /\ PointProperty_inflate (fun n : Z => n) {| pp_crs := "wgs-84" |}
       (CartesianPoint [1; 2]) "<class 'neo4j._spatial.CartesianPoint'>"
     = Raise (ValueError
         "Invalid CRS. Expected POINT defined over wgs-84, received cartesian").
Proof.
  split.
  - destruct (inflate_checks_srid (fun n : Z => n) {| pp_crs := "wgs-84" |}
                (Point (Some 12) [1; 2]) "<class 'neo4j._spatial.Point'>" eq_refl)
      as (_ & Hunknown & _).
    apply Hunknown. intros s [= <-]. repeat split; discriminate.
  - destruct (inflate_checks_srid (fun n : Z => n) {| pp_crs := "wgs-84" |}
                (CartesianPoint [1; 2]) "<class 'neo4j._spatial.CartesianPoint'>" eq_refl)
      as (Hmismatch & _ & _).
    apply (Hmismatch 7203 "cartesian"); [reflexivity | reflexivity | discriminate].
Defined.

(** A cartesian-3d point comes back from the wire with the same [x], [y]
    and [z]. *)
Lemma point_round_trip_witness :
  well_formed {| _crs := "cartesian-3d"; coords := [1; 2; 3] |}
  /\ exists w,
       PointProperty_deflate {| pp_crs := "cartesian-3d" |}
         (PointValue {| _crs := "cartesian-3d"; coords := [1; 2; 3] |}) = Ok (Some w)
       /\ PointProperty_inflate (fun n : Z => n) {| pp_crs := "cartesian-3d" |} w ""
          = Ok (Some {| _crs := "cartesian-3d"; coords := [1; 2; 3] |}).
Proof.
  assert (well_formed {| _crs := "cartesian-3d"; coords := [1; 2; 3] |}) as Hwf.
  { split; [|reflexivity]. apply list_elem_of_In. simpl. tauto. }
  split; [exact Hwf|].
  destruct (point_round_trip (fun n : Z => n) {| pp_crs := "cartesian-3d" |}
              {| _crs := "cartesian-3d"; coords := [1; 2; 3] |} Hwf eq_refl)
    as (w & Hdeflate & Hinflate).
  exists w. split; [exact Hdeflate | apply Hinflate].
Defined.

(** * Further properties *)

(** ** Schema resolution, whatever the flags *)

Section MoreSchemaFacts.
Context {V W O : Type}.
Implicit Types (d : descriptor V W O) (c : pyclass V W O) (cls : klass V W O).
Implicit Types (props : list (string * descriptor V W O)) (name key : string).

Lemma vars_selected_kind a p r d :
  vars_selected a p r d = true -> kind_selected a p r d = true.
Proof.
  unfold vars_selected, kind_selected.
  destruct a, p, r, (is_AliasProperty d), (is_Property d),
    (is_RelationshipDefinition d); simpl; congruence.
Qed.

Lemma merge_field_elem a p r props key d name d' :
  (name, d') ∈ merge_field a p r props (key, d) ->
  (name, d') ∈ props \/ ((name, d') = (key, d) /\ kind_selected a p r d = true).
Proof.
  unfold merge_field, kind_selected.
  destruct (is_RelationshipDefinition d), (is_Property d), (is_AliasProperty d),
    a, p, r; simpl; intros H;
    repeat (apply elem_of_set in H as [H|H]; [by right|]); by left.
Qed.

Lemma merge_class_elem a p r props c name d :
  (name, d) ∈ merge_class a p r props c ->
  (name, d) ∈ props \/ (binds c name d /\ kind_selected a p r d = true).
Proof.
  unfold merge_class, binds.
  assert (forall q : list (string * descriptor V W O),
            (name, d) ∈ Dict.update q
               (Dict.of_items
                  (List.filter (fun np => vars_selected a p r np.2) (cls_vars c))) ->
            (name, d) ∈ q
            \/ ((name, d) ∈ cls_vars c /\ kind_selected a p r d = true)) as Hvars.
  { intros q H. apply elem_of_update in H as [H|H]; [by left|].
    apply elem_of_of_items, list_elem_of_In, filter_In in H as [Hin Hsel].
    right. split; [by apply list_elem_of_In | by apply vars_selected_kind]. }
  destruct (cls_model_fields c) as [fields|]; [|intros H; apply Hvars in H; tauto].
  assert (forall (fs : list (string * descriptor V W O)) q,
            (name, d) ∈ fold_left (merge_field a p r) fs q ->
            (name, d) ∈ q \/ ((name, d) ∈ fs /\ kind_selected a p r d = true)) as Hfold.
  { induction fs as [|[key fd] fs IH]; intros q; cbn [fold_left]; [by left|].
    intros H. destruct (IH _ H) as [Hq|[Hfs Hk]].
    - apply merge_field_elem in Hq as [?|[[= -> ->] Hk]]; [by left|].
      right. split; [apply list_elem_of_here | exact Hk].
    - right. split; [by apply list_elem_of_further | exact Hk]. }
  intros H. destruct (Hfold _ _ H) as [Hq|[Hfs Hk]].
  - destruct (Hvars _ Hq) as [?|[? ?]]; [by left | right; split; [by left | done]].
  - right. split; [right; by exists fields | done].
Qed.

(** X1. Whatever the flags, every entry of the resolved schema was bound
    under that name by some class of the ancestry, and is of a kind the
    flags ask for: nothing is fabricated and nothing unrequested gets in. *)
Theorem defined_properties_sound cls (a p r : bool) name d :
  (name, d) ∈ defined_properties cls a p r ->
  kind_selected a p r d = true
  /\ exists c, c ∈ k_mro cls /\ binds c name d.
Proof.
  rewrite defined_properties_mro.
  induction (k_mro cls) as [|c mro IH]; simpl; intros H.
  - by apply elem_of_nil in H.
  - apply merge_class_elem in H as [H|[Hb Hk]].
    + destruct (IH H) as [Hk (c' & Hc' & Hb)]. split; [exact Hk|].
      exists c'. split; [by apply list_elem_of_further | exact Hb].
    + split; [exact Hk|]. exists c. split; [apply list_elem_of_here | exact Hb].
Qed.

(** X2. With the three flags off, the resolved schema is empty, whatever the
    classes declare. *)
Theorem defined_properties_no_flags cls :
  defined_properties cls false false false = [].
Proof.
  destruct (defined_properties cls false false false) as [|[name d] l] eqn:E;
    [reflexivity|].
  assert ((name, d) ∈ defined_properties cls false false false) as H
    by (rewrite E; apply list_elem_of_here).
  apply defined_properties_sound in H as [H _]. discriminate H.
Qed.

(** X3. The two places a descriptor may be declared are not filtered alike:
    an object that is both a [Property] and an [AliasProperty] is left out of
    [defined_properties(aliases=False)] when it is a class attribute, and is
    kept when it is the default of a model field. *)
Theorem alias_filter_depends_on_declaration cls_name name d :
  is_Property d = true ->
  is_AliasProperty d = true ->
  defined_properties
    {| k_name := cls_name;
       k_mro := [ {| cls_vars := [(name, d)]; cls_model_fields := None |} ];
       k_all_properties := None; k_all_aliases := None |} false true false = []
  /\ defined_properties
       {| k_name := cls_name;
          k_mro := [ {| cls_vars := []; cls_model_fields := Some [(name, d)] |} ];
          k_all_properties := None; k_all_aliases := None |} false true false
     = [(name, d)].
Proof.
  intros Hp Ha. unfold defined_properties, merge_class, merge_field, vars_selected.
  simpl. rewrite Hp, Ha. simpl.
  by destruct (is_RelationshipDefinition d).
Qed.

End MoreSchemaFacts.

(** ** Deflation as a whole *)

Lemma foldM_ext_in {A B} (f g : A -> B -> result A) (l : list B) (a : A) :
  (forall a' b, b ∈ l -> f a' b = g a' b) -> foldM f a l = foldM g a l.
Proof.
  revert a. induction l as [|b l IH]; intros a Hfg; cbn [foldM]; [reflexivity|].
  rewrite (Hfg a b) by apply list_elem_of_here.
  destruct (g a b) as [a'|e]; cbn [mbind result_bind]; [|reflexivity].
  apply IH. intros a'' b' Hin. by apply Hfg, list_elem_of_further.
Qed.

Section MoreDeflateFacts.
Context {V W O : Type}.
Implicit Types (cls : klass V W O) (properties : gmap string (option V)).
Implicit Types (np : string * descriptor V W O) (out : gmap string (option W)).

(** X4. [deflate] reads the bag only at the names of the resolved
    properties: two bags that agree there deflate alike, so keys that the
    class does not define are ignored. *)
Theorem deflate_ignores_undefined_keys cls properties properties'
    (obj : option O) (skip_empty : bool) :
  (forall np, np ∈ defined_properties cls false true false ->
     bag_get properties np.1 = bag_get properties' np.1) ->
  deflate cls properties obj skip_empty = deflate cls properties' obj skip_empty.
Proof.
  intros Hagree. unfold deflate. apply foldM_ext_in.
  intros deflated [name p] Hin. unfold deflate_entry.
  specialize (Hagree (name, p) Hin). simpl in Hagree. by rewrite Hagree.
Qed.

Lemma fold_ok_entries cls properties (obj : option O) skip_empty
    (l : list (string * descriptor V W O)) deflated out np :
  foldM (deflate_entry cls properties obj skip_empty) deflated l = Ok out ->
  np ∈ l -> ~ raises (deflate_entry cls properties obj skip_empty ∅ np).
Proof.
  revert deflated. induction l as [|np' l IH]; intros deflated Hfold Hin;
    [by apply elem_of_nil in Hin|].
  cbn [foldM] in Hfold.
  destruct (deflate_entry cls properties obj skip_empty deflated np')
    as [d'|e] eqn:Hstep; cbn [mbind result_bind] in Hfold; [|done].
  apply elem_of_cons in Hin as [->|Hin]; [|by apply (IH d')].
  intros Hraise. apply (deflate_entry_raises _ _ _ _ deflated) in Hraise.
  destruct Hraise as [e He]. congruence.
Qed.

(** X5. [deflate] returns a mapping exactly when every resolved property is
    accepted: it has a value other than [None] in the bag that its
    descriptor deflates; or, without such a value, a default that
    materialises and that its descriptor deflates; or, with neither, it is
    not required.  So the only ways to fail are a descriptor rejecting the
    value or the default, a default producer raising, and a required
    property with neither value nor default. *)
Theorem deflate_succeeds_iff cls properties (obj : option O) (skip_empty : bool) :
  (exists out, deflate cls properties obj skip_empty = Ok out)
  <-> forall name p,
        (name, p) ∈ defined_properties cls false true false ->
        match properties !! name with
        | Some (Some v) => exists w, prop_deflate p (Some v) obj = Ok w
        | _ =>
            if has_default p then
              exists d w, default_value p = Ok d /\ prop_deflate p d obj = Ok w
            else required p = false
        end.
Proof.
  split.
  - intros [out Hout] name p Hin.
    apply (entry_accepted_no_raise cls properties obj skip_empty (name, p)).
    by apply (fold_ok_entries _ _ _ _ _ _ _ _ Hout).
  - intros Hok. apply fold_no_failure. intros [name p] Hin.
    apply entry_accepted_no_raise. by apply Hok.
Qed.

(** X6. When [deflate] fails, it fails with the exception of the first
    resolved property that fails: later properties are not looked at. *)
Theorem deflate_first_failure cls properties (obj : option O) (skip_empty : bool)
    pre np post e :
  defined_properties cls false true false = pre ++ np :: post ->
  (forall np', np' ∈ pre ->
     ~ raises (deflate_entry cls properties obj skip_empty ∅ np')) ->
  deflate_entry cls properties obj skip_empty ∅ np = Raise e ->
  deflate cls properties obj skip_empty = Raise e.
Proof.
  intros Heq Hpre Hnp. unfold deflate. rewrite Heq.
  rewrite deflate_entry_emit in Hnp.
  destruct (entry_emit cls properties obj skip_empty np) as [x|e0] eqn:Hemit;
    cbn [mbind result_bind] in Hnp; [done|].
  injection Hnp as ->.
  by apply (fold_failure _ _ _ _ pre post np e Hemit).
Qed.

Lemma fold_keys_grow cls properties (obj : option O) skip_empty
    (l : list (string * descriptor V W O)) deflated out key :
  foldM (deflate_entry cls properties obj skip_empty) deflated l = Ok out ->
  is_Some (deflated !! key) -> is_Some (out !! key).
Proof.
  revert deflated. induction l as [|np l IH]; intros deflated; cbn [foldM].
  - by intros [= ->].
  - rewrite deflate_entry_emit.
    destruct (entry_emit cls properties obj skip_empty np) as [e|];
      cbn [mbind result_bind]; [|done].
    intros Hfold Hkey. apply (IH _ Hfold).
    destruct e as [w|]; simpl; [|exact Hkey].
    destruct (decide (wire_name np = key)) as [->|Hne].
    + rewrite lookup_insert_eq. by eexists.
    + by rewrite lookup_insert_ne.
Qed.

(** X7. Without [skip_empty], the output of [deflate] has a key for the
    wire name of every resolved property, set or not. *)
Theorem deflate_emits_every_wire_name cls properties (obj : option O) out np :
  deflate cls properties obj false = Ok out ->
  np ∈ defined_properties cls false true false ->
  is_Some (out !! wire_name np).
Proof.
  unfold deflate. intros Hout Hin.
  apply list_elem_of_split in Hin as (pre & post & Heq). rewrite Heq in Hout.
  rewrite foldM_app in Hout.
  destruct (foldM (deflate_entry cls properties obj false) ∅ pre) as [d1|];
    cbn [mbind result_bind foldM] in Hout; [|done].
  rewrite deflate_entry_emit in Hout.
  destruct (entry_emit cls properties obj false np) as [e|] eqn:Hemit;
    cbn [mbind result_bind] in Hout; [|done].
  apply (fold_keys_grow _ _ _ _ _ _ _ _ Hout).
  destruct e as [w|]; simpl; [rewrite lookup_insert_eq; by eexists|].
  exfalso. unfold entry_emit in Hemit.
  destruct (bag_get properties np.1).
  - destruct (prop_deflate np.2 _ obj); discriminate Hemit.
  - destruct (has_default np.2).
    + destruct (default_value np.2) as [d|]; cbn [mbind result_bind] in Hemit;
        [|discriminate Hemit].
      destruct (prop_deflate np.2 d obj); discriminate Hemit.
    + destruct (required np.2); discriminate Hemit.
Qed.

End MoreDeflateFacts.

(** ** Construction and inflation *)

Section MoreInitFacts.
Context {V W O : Type}.
Implicit Types (cls : klass V W O) (np : string * descriptor V W O).
Implicit Types (kwargs : gmap string (option V)) (self : gmap string (attr_value V)).

Lemma init_property_keeps np kwargs self kwargs' self' key :
  init_property (kwargs, self) np = Ok (kwargs', self') ->
  is_Some (self !! key) -> is_Some (self' !! key).
Proof.
  destruct np as [n p]. unfold init_property.
  assert (forall s : gmap string (attr_value V),
            is_Some (s !! key) ->
            is_Some ((if choices p
                      then <["get_" +:+ n +:+ "_display" := DisplayMethod n]> s
                      else s) !! key)) as Hchoices.
  { intros s Hs. destruct (choices p); [|exact Hs].
    rewrite lookup_insert_is_Some. destruct (decide ("get_" +:+ n +:+ "_display" = key));
      [by left | by right]. }
  assert (forall a, is_Some (self !! key) -> is_Some (<[n := a]> self !! key)) as Hins.
  { intros a Hs. rewrite lookup_insert_is_Some.
    destruct (decide (n = key)); [by left | by right]. }
  intros Hinit Hkey. destruct (bag_get kwargs n) as [v|].
  - cbn [mbind result_bind] in Hinit. injection Hinit as <- <-. auto.
  - destruct (has_default p).
    + destruct (default_value p) as [d|]; cbn [mbind result_bind] in Hinit; [|done].
      injection Hinit as <- <-. auto.
    + cbn [mbind result_bind] in Hinit. injection Hinit as <- <-. auto.
Qed.

Lemma init_property_sets name (p : descriptor V W O) kwargs self kwargs' self' :
  init_property (kwargs, self) (name, p) = Ok (kwargs', self') ->
  is_Some (self' !! name).
Proof.
  unfold init_property.
  assert (forall s : gmap string (attr_value V),
            is_Some (s !! name) ->
            is_Some ((if choices p
                      then <["get_" +:+ name +:+ "_display" := DisplayMethod name]> s
                      else s) !! name)) as Hchoices.
  { intros s Hs. destruct (choices p); [|exact Hs].
    rewrite lookup_insert_is_Some.
    destruct (decide ("get_" +:+ name +:+ "_display" = name)); [by left | by right]. }
  intros Hinit. destruct (bag_get kwargs name) as [v|].
  - cbn [mbind result_bind] in Hinit. injection Hinit as <- <-.
    apply Hchoices. rewrite lookup_insert_eq. by eexists.
  - destruct (has_default p).
    + destruct (default_value p) as [d|]; cbn [mbind result_bind] in Hinit; [|done].
      injection Hinit as <- <-. apply Hchoices. rewrite lookup_insert_eq. by eexists.
    + cbn [mbind result_bind] in Hinit. injection Hinit as <- <-.
      apply Hchoices. rewrite lookup_insert_eq. by eexists.
Qed.

Lemma fold_init_keeps (l : list (string * descriptor V W O))
    kwargs self kwargs' self' key :
  foldM init_property (kwargs, self) l = Ok (kwargs', self') ->
  is_Some (self !! key) -> is_Some (self' !! key).
Proof.
  revert kwargs self. induction l as [|np l IH]; intros kwargs self; cbn [foldM].
  - by intros [= <- <-].
  - destruct (init_property (kwargs, self) np) as [[kw1 s1]|] eqn:Hstep;
      cbn [mbind result_bind]; [|done].
    intros Hfold Hkey. apply (IH _ _ Hfold).
    by apply (init_property_keeps _ _ _ _ _ _ Hstep).
Qed.

Lemma fold_alias_keeps (l : list (string * descriptor V W O)) kwargs self key :
  is_Some (self !! key) ->
  is_Some ((fold_left init_alias l (kwargs, self)).2 !! key).
Proof.
  revert kwargs self. induction l as [|np l IH]; intros kwargs self Hkey;
    cbn [fold_left]; [exact Hkey|].
  unfold init_alias at 2. destruct (kwargs !! np.1) as [v|]; [|by apply IH].
  apply IH. rewrite lookup_insert_is_Some.
  destruct (decide (np.1 = key)); [by left | by right].
Qed.

(** X8. After [__init__] every resolved property is an attribute of the
    instance: there is no partially initialised instance. *)
Theorem init_binds_every_property cls self0 kwargs inst name (p : descriptor V W O) :
  k_all_properties cls = None ->
  PropertyManager_init cls self0 kwargs = Ok inst ->
  (name, p) ∈ defined_properties cls false true false ->
  is_Some (inst !! name).
Proof.
  intros Hall Hinit Hin. unfold PropertyManager_init in Hinit. rewrite Hall in Hinit.
  apply list_elem_of_split in Hin as (pre & post & Heq). rewrite Heq in Hinit.
  rewrite foldM_app in Hinit.
  destruct (foldM init_property (kwargs, self0) pre) as [[kw1 s1]|];
    cbn [mbind result_bind foldM] in Hinit; [|done].
  destruct (init_property (kw1, s1) (name, p)) as [[kw2 s2]|] eqn:Hentry;
    cbn [mbind result_bind] in Hinit; [|done].
  destruct (foldM init_property (kw2, s2) post) as [[kw3 s3]|] eqn:Hpost;
    cbn [mbind result_bind] in Hinit; [|done].
  pose proof (fold_init_keeps _ _ _ _ _ name Hpost (init_property_sets _ _ _ _ _ _ Hentry))
    as Hs3.
  set (aliases := match k_all_aliases cls with
                  | Some al => al
                  | None => defined_properties cls true false false
                  end) in Hinit.
  pose proof (fold_alias_keeps aliases kw3 s3 name Hs3) as Hs4.
  destruct (fold_left init_alias aliases (kw3, s3)) as [kw4 s4]. simpl in Hs4.
  injection Hinit as <-. apply lookup_union_is_Some. by right.
Qed.

End MoreInitFacts.

Section MoreInitValues.
Context {V W O : Type}.
Implicit Types (cls : klass V W O) (np : string * descriptor V W O).
Implicit Types (kwargs : gmap string (option V)) (self : gmap string (attr_value V)).

(** The value the first loop gives a property decides the attribute, as
    long as no display accessor lands on the same name. *)
Lemma init_entry_decides cls self0 kwargs inst name (p : descriptor V W O) :
  k_all_properties cls = None ->
  (name, p) ∈ defined_properties cls false true false ->
  (forall np, np ∈ defined_properties cls false true false -> display_free name np) ->
  PropertyManager_init cls self0 kwargs = Ok inst ->
  exists kw1 s1 kw2 s2,
    kw1 !! name = kwargs !! name
    /\ init_property (kw1, s1) (name, p) = Ok (kw2, s2)
    /\ inst !! name = s2 !! name.
Proof.
  intros Hall Hin Hdisp. unfold PropertyManager_init. rewrite Hall.
  destruct (split_resolved cls name p Hin) as (pre & post & Heq & Hnames).
  assert (forall l : list (string * descriptor V W O),
            (forall np, np ∈ l -> np ∈ pre ++ post) ->
            forall np, np ∈ l -> np.1 <> name /\ display_free name np) as Hother.
  { intros l Hl np Hnp. split; [by apply Hnames, Hl|].
    apply Hdisp. rewrite Heq. apply Hl, elem_of_app in Hnp as [?|?].
    - apply elem_of_app. by left.
    - apply elem_of_app. right. by apply list_elem_of_further. }
  rewrite Heq, foldM_app.
  destruct (foldM init_property (kwargs, self0) pre) as [[kw1 s1]|] eqn:Hpre;
    cbn [mbind result_bind foldM]; [|done].
  apply fold_init_other with (name := name) in Hpre as [Hkw1 _];
    [|apply Hother; intros np ?; apply elem_of_app; by left].
  destruct (init_property (kw1, s1) (name, p)) as [[kw2 s2]|] eqn:Hentry;
    cbn [mbind result_bind]; [|done].
  assert (kw2 !! name = None) as Hkw2.
  { revert Hentry. unfold init_property.
    destruct (bag_get kw1 name); [|destruct (has_default p);
      [destruct (default_value p)|]]; cbn [mbind result_bind]; try done;
      intros [= <- _]; apply lookup_delete_eq. }
  destruct (foldM init_property (kw2, s2) post) as [[kw3 s3]|] eqn:Hpost;
    cbn [mbind result_bind]; [|done].
  apply fold_init_other with (name := name) in Hpost as [Hkw3 Hs3];
    [|apply Hother; intros np ?; apply elem_of_app; by right].
  rewrite Hkw2 in Hkw3.
  set (aliases := match k_all_aliases cls with
                  | Some al => al
                  | None => defined_properties cls true false false
                  end).
  destruct (fold_alias_absent name aliases kw3 s3 Hkw3) as [Hkw4 Hs4].
  destruct (fold_left init_alias aliases (kw3, s3)) as [kw4 s4]. simpl in Hkw4, Hs4.
  intros [= <-]. exists kw1, s1, kw2, s2. split; [exact Hkw1|]. split; [exact Hentry|].
  rewrite lookup_union_r by (by rewrite lookup_fmap, Hkw4). congruence.
Qed.

Lemma init_value_cases cls self0 kwargs inst name (p : descriptor V W O) :
  k_all_properties cls = None ->
  (name, p) ∈ defined_properties cls false true false ->
  (forall np, np ∈ defined_properties cls false true false -> display_free name np) ->
  PropertyManager_init cls self0 kwargs = Ok inst ->
  (forall v, bag_get kwargs name = Some v -> inst !! name = Some (Value (Some v)))
  /\ (bag_get kwargs name = None -> has_default p = true ->
      forall d, default_value p = Ok d -> inst !! name = Some (Value d))
  /\ (bag_get kwargs name = None -> has_default p = false ->
      inst !! name = Some (Value None)).
Proof.
  intros Hall Hin Hdisp Hinit.
  destruct (init_entry_decides cls self0 kwargs inst name p Hall Hin Hdisp Hinit)
    as (kw1 & s1 & kw2 & s2 & Hkw1 & Hentry & ->).
  assert (display_free name (name, p)) as Hd by (by apply Hdisp).
  unfold display_free in Hd. simpl in Hd.
  assert (forall a (s : gmap string (attr_value V)),
            (if choices p
             then <["get_" +:+ name +:+ "_display" := DisplayMethod name]> (<[name := a]> s)
             else <[name := a]> s) !! name = Some a) as Hset.
  { intros a s. destruct (choices p).
    - rewrite lookup_insert_ne by auto. apply lookup_insert_eq.
    - apply lookup_insert_eq. }
  unfold init_property in Hentry.
  rewrite (bag_get_lookup kwargs kw1 name Hkw1) in Hentry.
  split; [|split].
  - intros v Hv. rewrite Hv in Hentry. cbn [mbind result_bind] in Hentry.
    injection Hentry as _ <-. apply Hset.
  - intros Hnone Hdef d Hdv. rewrite Hnone, Hdef, Hdv in Hentry.
    cbn [mbind result_bind] in Hentry. injection Hentry as _ <-. apply Hset.
  - intros Hnone Hdef. rewrite Hnone, Hdef in Hentry.
    cbn [mbind result_bind] in Hentry. injection Hentry as _ <-. apply Hset.
Qed.

(** X9. [__init__] stores a keyword value that is not [None] as it is, with
    no validation, and stores [None] for a property that has neither a
    keyword value nor a default. *)
Theorem init_keyword_or_None cls self0 kwargs inst name (p : descriptor V W O) :
  k_all_properties cls = None ->
  (name, p) ∈ defined_properties cls false true false ->
  (forall np, np ∈ defined_properties cls false true false -> display_free name np) ->
  PropertyManager_init cls self0 kwargs = Ok inst ->
  (forall v, bag_get kwargs name = Some v -> inst !! name = Some (Value (Some v)))
  /\ (bag_get kwargs name = None -> has_default p = false ->
      inst !! name = Some (Value None)).
Proof.
  intros Hall Hin Hdisp Hinit.
  destruct (init_value_cases cls self0 kwargs inst name p Hall Hin Hdisp Hinit)
    as (Hkw & _ & Hnone).
  split; assumption.
Qed.



End MoreInitValues.

Section MoreInflateFacts.
Context {V W O : Type}.
Implicit Types (cls : klass V W O) (np : string * descriptor V W O).
Implicit Types (graph_entity : gmap string (option W)).




End MoreInflateFacts.

(** ** The metaclass guard, when it lets a class through *)

Section MoreMetaclassFacts.
Context {V W O : Type}.
Implicit Types (dct : list (string * descriptor V W O)) (value : descriptor V W O).
Implicit Types (kv : string * descriptor V W O) (e : string * class_entry V W O).






End MoreMetaclassFacts.

(** ** Inflating a relationship, then reading its identifiers *)

Section MoreIdentityFacts.
Context {V W O : Type}.
Variable py_int : attr_value V -> result Z.

Lemma legacy_id_present (self : gmap string (attr_value V)) name a :
  self !! name = Some a ->
  legacy_id py_int self name
  = match py_int a with
    | Ok n => Ok n
    | Raise e => if is_TypeError_or_ValueError e
                 then Raise (ValueError ELEMENT_ID_MIGRATION_NOTICE)
                 else Raise e
    end.
Proof. intros Ha. unfold legacy_id, getattr. by rewrite Ha. Qed.

(** X13. On an inflated relationship, [id] is [int()] of the element id the
    driver gave: the integer when the id coerces, the migration notice when
    [int()] raises [TypeError] or [ValueError] (an id that is [None] or not
    numeric), and any other exception of [int()] as it is. *)
Theorem inflate_then_id (cls : klass V W O)
    (base_init : gmap string (option V) -> gmap string (attr_value V))
    (rel : raw_relationship V W) (srel : gmap string (attr_value V)) :
  AsyncStructuredRel_inflate cls base_init rel = Ok srel ->
  (forall n, py_int (Value (rel_element_id rel)) = Ok n -> id py_int srel = Ok n)
  /\ (forall e, py_int (Value (rel_element_id rel)) = Raise e ->
        is_TypeError_or_ValueError e = true ->
        id py_int srel = Raise (ValueError ELEMENT_ID_MIGRATION_NOTICE))
  /\ (forall e, py_int (Value (rel_element_id rel)) = Raise e ->
        is_TypeError_or_ValueError e = false ->
        id py_int srel = Raise e).
Proof.
  unfold AsyncStructuredRel_inflate.
  destruct (inflate cls base_init (rel_properties rel)) as [s|];
    cbn [mbind result_bind]; [|done].
  intros [= <-]. unfold id.
  rewrite (legacy_id_present _ _ (Value (rel_element_id rel)))
    by apply lookup_insert_eq.
  repeat split.
  - by intros n ->.
  - by intros e -> ->.
  - by intros e -> ->.
Qed.

(** X14. On an inflated relationship the three modern accessors return the
    element ids of the relationship and of its two end nodes, as the driver
    gave them. *)
Theorem inflate_then_element_ids (cls : klass V W O)
    (base_init : gmap string (option V) -> gmap string (attr_value V))
    (rel : raw_relationship V W) (srel : gmap string (attr_value V)) :
  AsyncStructuredRel_inflate cls base_init rel = Ok srel ->
  element_id srel = Ok (Value (rel_element_id rel))
  /\ _start_node_element_id srel = Ok (Value (rel_start_node_element_id rel))
  /\ _end_node_element_id srel = Ok (Value (rel_end_node_element_id rel)).
Proof.
  unfold AsyncStructuredRel_inflate.
  destruct (inflate cls base_init (rel_properties rel)) as [s|];
    cbn [mbind result_bind]; [|done].
  intros [= <-]. unfold element_id, _start_node_element_id, _end_node_element_id.
  repeat split; apply guarded_attr_present; by simplify_map_eq.
Qed.

End MoreIdentityFacts.

(** ** Construction of points *)

Section MoreSpatialFacts.
Context {pyfloat : Type}.
Variable float_of_int : Z -> pyfloat.
Implicit Types (p : NeomodelPoint pyfloat) (kw : point_kwargs pyfloat).
Implicit Types (args : list (positional pyfloat)).

Lemma float_Some (n : num pyfloat) :
  float float_of_int (Some n) = Ok (float_of float_of_int n).
Proof. by destruct n. Qed.

Lemma crs_acceptable_cases (crs : option string) :
  crs_acceptable crs ->
  crs = None \/ crs = Some "cartesian" \/ crs = Some "cartesian-3d"
  \/ crs = Some "wgs-84" \/ crs = Some "wgs-84-3d".
Proof.
  destruct crs as [c|]; [|by left]. unfold crs_acceptable, ACCEPTABLE_CRS.
  intros H. repeat (apply elem_of_cons in H as [->|H]); [tauto..|].
  by apply elem_of_nil in H.
Qed.

Lemma crs_check_passes (crs : option string) :
  crs_acceptable crs ->
  match crs with
  | Some c => negb (bool_decide (c ∈ ACCEPTABLE_CRS))
  | None => false
  end = false.
Proof.
  destruct crs as [c|]; [|done]. simpl. intros H. by rewrite bool_decide_eq_true_2.
Qed.

Lemma init_named_well_formed (crs : option string)
    (vx vy vz lon lat h : option (num pyfloat)) p :
  crs_acceptable crs ->
  init_named float_of_int crs vx vy vz lon lat h = Ok p ->
  well_formed p.
Proof.
  intros Hcrs Hinit. apply crs_acceptable_cases in Hcrs.
  destruct Hcrs as [-> | [-> | [-> | [-> | ->]]]];
    destruct vx, vy, vz, lon, lat, h; cbn in Hinit; try discriminate Hinit;
    repeat match goal with n : num _ |- _ => destruct n end; cbn in Hinit;
    injection Hinit as <-;
    (split; [apply list_elem_of_In; simpl; tauto | reflexivity]).
Qed.

(** X15. Every construction other than the copy of a shapely point under
    an explicit CRS yields a point whose CRS is one of the four and agrees
    with its number of coordinates (a copied [NeomodelPoint] being well
    formed itself). *)
Theorem init_checks_arity args kw p :
  arity_checked args kw ->
  NeomodelPoint_init float_of_int args kw = Ok p ->
  well_formed p.
Proof.
  intros Harity Hinit. unfold NeomodelPoint_init in Hinit.
  assert (crs_acceptable (kw_crs kw)) as Hcrs.
  { destruct (kw_crs kw) as [c|]; [|done]. simpl in *.
    case_bool_decide; [done | discriminate Hinit]. }
  rewrite (crs_check_passes _ Hcrs) in Hinit.
  destruct args as [|[items|cs|q|t] rest].
  - by apply init_named_well_formed in Hinit.
  - destruct (bool_decide (length items < 2)%nat || bool_decide (3 < length items)%nat);
      [discriminate Hinit|].
    by apply init_named_well_formed in Hinit.
  - simpl in Harity. rewrite Harity in Hinit. simpl in Hinit.
    repeat case_bool_decide; try discriminate Hinit; injection Hinit as <-;
      (split; [apply list_elem_of_In; simpl; tauto | simpl; congruence]).
  - simpl in Harity. injection Hinit as <-. by destruct q.
  - discriminate Hinit.
Qed.

(** X16. A CRS outside the four is refused before anything else, whatever
    the other arguments; and a coordinate sequence of fewer than 2 or more
    than 3 items is refused with its length. *)
Theorem init_rejects_bad_crs_and_dimensions args kw :
  (forall c, kw_crs kw = Some c -> c ∉ ACCEPTABLE_CRS ->
     NeomodelPoint_init float_of_int args kw
     = Raise (ValueError ("Invalid CRS(" +:+ c
          +:+ "). Expected one of cartesian,cartesian-3d,wgs-84,wgs-84-3d")))
  /\ (forall items rest,
        crs_acceptable (kw_crs kw) ->
        args = Sequence items :: rest ->
        (length items < 2 \/ 3 < length items)%nat ->
        NeomodelPoint_init float_of_int args kw
        = Raise (ValueError ("Invalid vector dimensions. Expected 2 or 3, received "
                             +:+ str_int (Z.of_nat (length items))))).
Proof.
  split.
  - intros c Hc Hbad. unfold NeomodelPoint_init. rewrite Hc. simpl.
    by rewrite bool_decide_eq_false_2.
  - intros items rest Hcrs -> Hlen. unfold NeomodelPoint_init.
    rewrite (crs_check_passes _ Hcrs).
    destruct Hlen as [Hlen|Hlen].
    + by rewrite (bool_decide_eq_true_2 _ Hlen).
    + rewrite (bool_decide_eq_true_2 _ Hlen). by rewrite orb_true_r.
Qed.

(** X17. [__copy__] and [__deepcopy__] return a point with the same CRS and
    coordinates; copy-construction from a [NeomodelPoint] ignores an
    explicit [crs] argument, provided it is one of the four. *)
Theorem copy_preserves_point p :
  NeomodelPoint_copy float_of_int p = Ok p
  /\ NeomodelPoint_deepcopy float_of_int p = Ok p
  /\ forall kw rest,
       crs_acceptable (kw_crs kw) ->
       NeomodelPoint_init float_of_int (APoint p :: rest) kw = Ok p.
Proof.
  destruct p as [c cs]. repeat split.
  intros kw rest Hcrs. unfold NeomodelPoint_init.
  by rewrite (crs_check_passes _ Hcrs).
Qed.

(** X18. Keyword construction without [crs] succeeds only from a complete
    pair of one family and nothing of the other, and infers the CRS from
    the family and from the presence of the third coordinate: [x, y] gives
    cartesian, [x, y, z] cartesian-3d, [longitude, latitude] wgs-84 and
    with [height] wgs-84-3d, the longitude being stored first. *)
Theorem keyword_construction_infers_crs kw p :
  kw_crs kw = None ->
  NeomodelPoint_init float_of_int [] kw = Ok p ->
  (exists vx vy,
     kw_x kw = Some vx /\ kw_y kw = Some vy
     /\ kw_longitude kw = None /\ kw_latitude kw = None /\ kw_height kw = None
     /\ p = match kw_z kw with
            | Some vz =>
                {| _crs := "cartesian-3d";
                   coords := [float_of float_of_int vx; float_of float_of_int vy;
                              float_of float_of_int vz] |}
            | None =>
                {| _crs := "cartesian";
                   coords := [float_of float_of_int vx; float_of float_of_int vy] |}
            end)
  \/ (exists lon lat,
        kw_longitude kw = Some lon /\ kw_latitude kw = Some lat
        /\ kw_x kw = None /\ kw_y kw = None /\ kw_z kw = None
        /\ p = match kw_height kw with
               | Some h =>
                   {| _crs := "wgs-84-3d";
                      coords := [float_of float_of_int lon; float_of float_of_int lat;
                                 float_of float_of_int h] |}
               | None =>
                   {| _crs := "wgs-84";
                      coords := [float_of float_of_int lon; float_of float_of_int lat] |}
               end).
Proof.
  destruct kw as [c vx vy vz lon lat h]. simpl. intros -> Hinit.
  unfold NeomodelPoint_init in Hinit. simpl in Hinit.
  destruct vx, vy, vz, lon, lat, h; cbn in Hinit; try discriminate Hinit;
    repeat match goal with n : num _ |- _ => destruct n end; cbn in Hinit;
    injection Hinit as <-;
    first [ left; do 2 eexists; repeat split; reflexivity
          | right; do 2 eexists; repeat split; reflexivity ].
Qed.


(** X20. On a well-formed point the accessors of its own family return the
    stored coordinates in order ([x] or [longitude] first, [y] or [latitude]
    second, [z] or [height] third), and the third accessor raises on a
    two-dimensional point. *)
Theorem accessors_of_own_family p :
  well_formed p ->
  (crs p = "cartesian" ->
     exists a b, coords p = [a; b] /\ x p = Ok a /\ y p = Ok b
                 /\ z p = Raise (invalid_coordinate "z" p))
  /\ (crs p = "cartesian-3d" ->
        exists a b c, coords p = [a; b; c] /\ x p = Ok a /\ y p = Ok b /\ z p = Ok c)
  /\ (crs p = "wgs-84" ->
        exists a b, coords p = [a; b] /\ longitude p = Ok a /\ latitude p = Ok b
                    /\ height p = Raise (invalid_coordinate "height" p))
  /\ (crs p = "wgs-84-3d" ->
        exists a b c, coords p = [a; b; c] /\ longitude p = Ok a /\ latitude p = Ok b
                      /\ height p = Ok c).
Proof.
  destruct p as [c cs]. unfold well_formed, crs. simpl. intros [_ Hlen].
  repeat split; intros ->; simpl in Hlen.
  - destruct cs as [|a [|b [|? ?]]]; try discriminate Hlen. by exists a, b.
  - destruct cs as [|a [|b [|c [|? ?]]]]; try discriminate Hlen. by exists a, b, c.
  - destruct cs as [|a [|b [|? ?]]]; try discriminate Hlen. by exists a, b.
  - destruct cs as [|a [|b [|c [|? ?]]]]; try discriminate Hlen. by exists a, b, c.
Qed.

End MoreSpatialFacts.

(** ** The point property, both ways *)

Section MorePointPropertyFacts.
Context {pyfloat : Type}.
Variable float_of_int : Z -> pyfloat.
Implicit Types (self : PointProperty) (value : wire pyfloat) (p : NeomodelPoint pyfloat).

Lemma SRID_TO_CRS_known (s : Z) (c : string) :
  SRID_TO_CRS !! s = Some c ->
  (s = 7203 /\ c = "cartesian") \/ (s = 9157 /\ c = "cartesian-3d")
  \/ (s = 4326 /\ c = "wgs-84") \/ (s = 4979 /\ c = "wgs-84-3d").
Proof.
  unfold SRID_TO_CRS. intros H.
  destruct (decide (s = 7203)) as [->|H1];
    [rewrite lookup_insert_eq in H; injection H as <-; tauto|].
  rewrite lookup_insert_ne in H by done.
  destruct (decide (s = 9157)) as [->|H2];
    [rewrite lookup_insert_eq in H; injection H as <-; tauto|].
  rewrite lookup_insert_ne in H by done.
  destruct (decide (s = 4326)) as [->|H3];
    [rewrite lookup_insert_eq in H; injection H as <-; tauto|].
  rewrite lookup_insert_ne in H by done.
  destruct (decide (s = 4979)) as [->|H4];
    [rewrite lookup_insert_eq in H; injection H as <-; tauto|].
  rewrite lookup_insert_ne in H by done. by rewrite lookup_empty in H.
Qed.

(** X21. A point property can be declared exactly with a CRS that is one of
    the four and a default that is a callable, a [NeomodelPoint] or absent;
    it then carries that CRS. *)
Theorem PointProperty_init_iff (crs : option string)
    (dflt : option (default_arg pyfloat)) self :
  PointProperty_init crs dflt = Ok self
  <-> exists c, crs = Some c /\ c ∈ ACCEPTABLE_CRS
                /\ (forall type_repr, dflt <> Some (DefaultObject type_repr))
                /\ self = {| pp_crs := c |}.
Proof.
  unfold PointProperty_init. split.
  - destruct crs as [c|]; [|done]. case_bool_decide; [|done].
    destruct dflt as [[|q|t]|]; try done; intros [= <-]; exists c; by repeat split.
  - intros (c & -> & Hc & Hd & ->). rewrite bool_decide_eq_true_2 by done.
    destruct dflt as [[|q|t]|]; try reflexivity. by destruct (Hd t).
Qed.

(** X22. [deflate] only lets through a [NeomodelPoint] of the declared CRS
    (anything else raises [TypeError], another CRS raises [ValueError]
    naming both), and the wire point it returns carries the SRID of that
    CRS. *)
Theorem deflate_sound self (v : app_value pyfloat) :
  (forall type_repr, v = ObjectValue type_repr ->
     PointProperty_deflate self v
     = Raise (TypeError ("Invalid datatype to deflate. Expected NeomodelPoint, received "
                         +:+ type_repr)))
  /\ (forall p, v = PointValue p -> crs p <> pp_crs self ->
        PointProperty_deflate self v
        = Raise (ValueError ("Invalid CRS. Expected NeomodelPoint defined over "
                             +:+ pp_crs self
                             +:+ ", received NeomodelPoint defined over " +:+ crs p)))
  /\ (forall w, PointProperty_deflate self v = Ok (Some w) ->
        exists p, v = PointValue p /\ crs p = pp_crs self
                  /\ srid w ≫= (SRID_TO_CRS !!.) = Some (pp_crs self)).
Proof.
  split; [|split].
  - by intros t ->.
  - intros p -> Hne. unfold PointProperty_deflate.
    by rewrite bool_decide_eq_false_2.
  - intros w. destruct v as [p|t]; [|done]. unfold PointProperty_deflate.
    case_bool_decide as Hcrs; [|done]. simpl. rewrite <- Hcrs.
    destruct p as [c cs]. unfold crs, x, y, z, longitude, latitude, height,
      shapely_axis. simpl.
    intros Hw. exists {| _crs := c; coords := cs |}. split; [reflexivity|].
    split; [reflexivity|]. revert Hw.
    repeat (case_bool_decide; [subst c; simpl;
      repeat (match goal with
              | |- context [cs !! ?i] => destruct (cs !! i); cbn [mbind result_bind]
              end); try done; intros [= <-]; reflexivity|]).
    done.
Qed.

(** X23. Whatever [inflate] returns is a well-formed point of the declared
    CRS, never [None], and deflating it gives back the wire point it came
    from. *)
Theorem inflate_sound self value (type_repr : string) r :
  PointProperty_inflate float_of_int self value type_repr = Ok r ->
  exists p, r = Some p /\ crs p = pp_crs self /\ well_formed p
            /\ PointProperty_deflate self (PointValue p) = Ok (Some value).
Proof.
  destruct self as [c]. unfold PointProperty_inflate. simpl.
  destruct (isinstance_Point value) eqn:Hpoint; [|done]. simpl.
  destruct (srid value ≫= (SRID_TO_CRS !!.)) as [c'|] eqn:Hsrid; [|done].
  case_bool_decide as Hcrs; [|done]. simpl. subst c'.
  destruct (srid value) as [s|] eqn:Hs; [|done]. simpl in Hsrid.
  apply SRID_TO_CRS_known in Hsrid.
  destruct value as [cs|cs|s' cs|t]; [| | |done].
  - simpl in Hs. destruct cs as [|a [|b [|c3 [|? ?]]]]; try discriminate Hs;
      injection Hs as <-;
      destruct Hsrid as [[? ->]|[[? ->]|[[? ->]|[? ->]]]]; try done;
      intros [= <-]; eexists; repeat split; apply list_elem_of_In; simpl; tauto.
  - simpl in Hs. destruct cs as [|a [|b [|c3 [|? ?]]]]; try discriminate Hs;
      injection Hs as <-;
      destruct Hsrid as [[? ->]|[[? ->]|[[? ->]|[? ->]]]]; try done;
      intros [= <-]; eexists; repeat split; apply list_elem_of_In; simpl; tauto.
  - simpl in Hs. subst s'.
    destruct Hsrid as [[-> ->]|[[-> ->]|[[-> ->]|[-> ->]]]]; done.
Qed.

(** X24. A three-coordinate shapely point copied under [crs="cartesian"] is
    accepted, and deflating it through a cartesian property sends only its
    first two coordinates: the third is lost without an error. *)
Theorem mistagged_point_loses_coordinate (a b c : pyfloat) :
  exists p,
    NeomodelPoint_init float_of_int [ShapelyPoint [a; b; c]] (crs_kwargs "cartesian")
    = Ok p
    /\ PointProperty_deflate {| pp_crs := "cartesian" |} (PointValue p)
       = Ok (Some (CartesianPoint [a; b])).
Proof. eexists. split; reflexivity. Qed.

End MorePointPropertyFacts.

(** ** The statements above on concrete classes and points *)

Lemma Employee_schema_eq :
  defined_properties Employee false true false = Employee_schema.
Proof. reflexivity. Qed.

Lemma Person_schema_eq :
  defined_properties Person false true false = Person_schema.
Proof. reflexivity. Qed.

Lemma Employee_display_free name np :
  np ∈ defined_properties Employee false true false -> display_free name np.
Proof.
  rewrite Employee_schema_eq. unfold Employee_schema. intros Hnp Hchoices.
  repeat (apply elem_of_cons in Hnp as [->|Hnp]); try discriminate Hchoices.
  by apply elem_of_nil in Hnp.
Qed.

Lemma age_resolved :
  ("age", int_property false true (Some 18) (Some "years"))
    ∈ defined_properties Employee false true false.
Proof. rewrite Employee_schema_eq. unfold Employee_schema. set_solver. Qed.

Lemma name_resolved :
  ("name", int_property false false None None)
    ∈ defined_properties Employee false true false.
Proof. rewrite Employee_schema_eq. unfold Employee_schema. set_solver. Qed.

Lemma defined_properties_sound_witness :
  kind_selected false true false (int_property false true (Some 18) (Some "years")) = true
  /\ exists c, c ∈ k_mro Employee
               /\ binds c "age" (int_property false true (Some 18) (Some "years")).
Proof. exact (defined_properties_sound Employee false true false _ _ age_resolved). Defined.

Lemma alias_filter_depends_on_declaration_witness :
  defined_properties
    {| k_name := "Tagged";
       k_mro := [ {| cls_vars := [("label", alias_property)]; cls_model_fields := None |} ];
       k_all_properties := None; k_all_aliases := None |} false true false = []
  /\ defined_properties
       {| k_name := "Tagged";
          k_mro := [ {| cls_vars := [];
                        cls_model_fields := Some [("label", alias_property)] |} ];
          k_all_properties := None; k_all_aliases := None |} false true false
     = [("label", alias_property)].
Proof.
  exact (alias_filter_depends_on_declaration "Tagged" "label" alias_property
           eq_refl eq_refl).
Defined.

Lemma deflate_ignores_undefined_keys_witness :
  deflate Employee nickname_bag None false = deflate Employee name_only_bag None false.
Proof.
  apply deflate_ignores_undefined_keys. intros np Hnp.
  rewrite Employee_schema_eq in Hnp. unfold Employee_schema in Hnp.
  repeat (apply elem_of_cons in Hnp as [->|Hnp]); [vm_compute; reflexivity..|].
  by apply elem_of_nil in Hnp.
Defined.

Lemma deflate_succeeds_iff_witness :
  exists out, deflate Employee name_only_bag None false = Ok out.
Proof.
  apply deflate_succeeds_iff. intros name p Hnp.
  rewrite Employee_schema_eq in Hnp. unfold Employee_schema in Hnp.
  repeat (apply elem_of_cons in Hnp as [[= -> ->]|Hnp]).
  - replace (name_only_bag !! "name") with (Some (Some 5))
      by (vm_compute; reflexivity).
    by exists (Some 5).
  - replace (name_only_bag !! "age") with (@None (option Z))
      by (vm_compute; reflexivity).
    by exists (Some 18), (Some 18).
  - replace (name_only_bag !! "badge") with (@None (option Z))
      by (vm_compute; reflexivity).
    by exists (Some 7), (Some 7).
  - by apply elem_of_nil in Hnp.
Defined.

Lemma deflate_first_failure_witness :
  deflate Person empty_bag None false = Raise (RequiredProperty "name" "Person").
Proof.
  apply (deflate_first_failure Person empty_bag None false []
           ("name", int_property true false None None)
           [("age", int_property false true (Some 18) (Some "years"))]).
  - reflexivity.
  - intros np Hnp. by apply elem_of_nil in Hnp.
  - vm_compute. reflexivity.
Defined.

Lemma Employee_deflate :
  deflate Employee name_only_bag None false = Ok name_only_deflated.
Proof. vm_cast_no_check (@eq_refl _ (Ok name_only_deflated)). Qed.

Lemma deflate_emits_every_wire_name_witness :
  deflate Employee name_only_bag None false = Ok name_only_deflated
  /\ is_Some (name_only_deflated !! "years").
Proof.
  split; [exact Employee_deflate|].
  exact (deflate_emits_every_wire_name Employee name_only_bag None name_only_deflated
           _ Employee_deflate age_resolved).
Defined.

Lemma Employee_direct_construction :
  PropertyManager_init Employee ∅ name_only_bag = Ok direct_instance.
Proof. vm_compute. reflexivity. Qed.

Lemma init_binds_every_property_witness : is_Some (direct_instance !! "age").
Proof.
  exact (init_binds_every_property Employee ∅ name_only_bag direct_instance "age" _
           eq_refl Employee_direct_construction age_resolved).
Defined.

Lemma init_keyword_or_None_witness :
  direct_instance !! "name" = Some (Value (Some 5)).
Proof.
  destruct (init_keyword_or_None Employee ∅ name_only_bag direct_instance "name" _
              eq_refl name_resolved (Employee_display_free "name")
              Employee_direct_construction) as [Hkw _].
  apply Hkw. vm_compute. reflexivity.
Defined.





Lemma friend_edge_inflate :
  AsyncStructuredRel_inflate Employee store_keywords friend_edge = Ok inflated_edge.
Proof. vm_cast_no_check (@eq_refl _ (Ok inflated_edge)). Qed.

Lemma inflate_then_id_witness : id int_of_attr inflated_edge = Ok 42.
Proof.
  destruct (inflate_then_id int_of_attr Employee store_keywords friend_edge
              inflated_edge friend_edge_inflate) as [Hok _].
  apply Hok. reflexivity.
Defined.

Lemma inflate_then_element_ids_witness :
  element_id inflated_edge = Ok (Value (Some 42))
  /\ _start_node_element_id inflated_edge = Ok (Value (Some 1))
  /\ _end_node_element_id inflated_edge = Ok (Value (Some 2)).
Proof.
  exact (inflate_then_element_ids Employee store_keywords friend_edge
           inflated_edge friend_edge_inflate).
Defined.

Lemma init_checks_arity_witness :
  NeomodelPoint_init (fun n : Z => n)
    [Sequence [Some (NInt 1); Some (NInt 2); Some (NInt 3)]] (crs_kwargs "cartesian-3d")
  = Ok {| _crs := "cartesian-3d"; coords := [1; 2; 3] |}
  /\ well_formed {| _crs := "cartesian-3d"; coords := [1; 2; 3] |}.
Proof.
  split; [reflexivity|].
  apply (init_checks_arity (fun n : Z => n)
           [Sequence [Some (NInt 1); Some (NInt 2); Some (NInt 3)]]
           (crs_kwargs "cartesian-3d")); [exact I | reflexivity].
Defined.

Lemma init_rejects_bad_crs_and_dimensions_witness :
  NeomodelPoint_init (fun n : Z => n) [] (crs_kwargs "mercator")
  = Raise (ValueError
      "Invalid CRS(mercator). Expected one of cartesian,cartesian-3d,wgs-84,wgs-84-3d")
  /\ NeomodelPoint_init (fun n : Z => n) [Sequence [Some (NInt 1)]] no_kwargs
     = Raise (ValueError "Invalid vector dimensions. Expected 2 or 3, received 1").
Proof.
  split.
  - apply (proj1 (init_rejects_bad_crs_and_dimensions (fun n : Z => n) []
                    (crs_kwargs "mercator")) "mercator"); [reflexivity|].
    unfold ACCEPTABLE_CRS. rewrite !not_elem_of_cons.
    repeat split; try discriminate. apply not_elem_of_nil.
  - apply (proj2 (init_rejects_bad_crs_and_dimensions (fun n : Z => n)
                    [Sequence [Some (NInt 1)]] no_kwargs) [Some (NInt 1)] []);
      [exact I | reflexivity | left; simpl; lia].
Defined.

Lemma copy_preserves_point_witness :
  NeomodelPoint_init (fun n : Z => n)
    [APoint {| _crs := "wgs-84"; coords := [10; 20] |}] (crs_kwargs "cartesian")
  = Ok {| _crs := "wgs-84"; coords := [10; 20] |}.
Proof.
  destruct (copy_preserves_point (fun n : Z => n)
              {| _crs := "wgs-84"; coords := [10; 20] |}) as (_ & _ & Hinit).
  apply Hinit. simpl. unfold ACCEPTABLE_CRS. set_solver.
Defined.

Lemma keyword_construction_infers_crs_witness :
  NeomodelPoint_init (fun n : Z => n) [] (lonlat_kwargs 10 20)
  = Ok {| _crs := "wgs-84"; coords := [10; 20] |}.
Proof.
  destruct (NeomodelPoint_init (fun n : Z => n) [] (lonlat_kwargs 10 20))
    as [p|e] eqn:Hinit; [|discriminate Hinit].
  destruct (keyword_construction_infers_crs (fun n : Z => n) (lonlat_kwargs 10 20) p
              eq_refl Hinit)
    as [(vx & vy & Hx & _)|(lon & lat & Hlon & Hlat & _ & _ & _ & ->)];
    [discriminate Hx|].
  injection Hlon as <-. injection Hlat as <-. reflexivity.
Defined.

Lemma accessors_of_own_family_witness :
  exists a b,
    coords {| _crs := "wgs-84"; coords := [10; 20] |} = [a; b]
    /\ longitude {| _crs := "wgs-84"; coords := [10; 20] |} = Ok a
    /\ latitude {| _crs := "wgs-84"; coords := [10; 20] |} = Ok b
    /\ height {| _crs := "wgs-84"; coords := [10; 20] |}
       = Raise (invalid_coordinate "height" {| _crs := "wgs-84"; coords := [10; 20] |}).
Proof.
  assert (well_formed {| _crs := "wgs-84"; coords := [10; 20] |}) as Hwf.
  { split; [|reflexivity]. apply list_elem_of_In. simpl. tauto. }
  destruct (accessors_of_own_family {| _crs := "wgs-84"; coords := [10; 20] |} Hwf)
    as (_ & _ & Hgeo & _).
  exact (Hgeo eq_refl).
Defined.

Lemma PointProperty_init_iff_witness :
  PointProperty_init (Some "wgs-84") (@None (default_arg Z)) = Ok {| pp_crs := "wgs-84" |}.
Proof.
  apply PointProperty_init_iff. exists "wgs-84". split; [reflexivity|].
  split; [apply list_elem_of_In; simpl; tauto|]. split; [discriminate | reflexivity].
Defined.

Lemma deflate_sound_witness :
  PointProperty_deflate {| pp_crs := "wgs-84" |}
    (PointValue {| _crs := "cartesian"; coords := [1; 2] |})
  = Raise (ValueError
      "Invalid CRS. Expected NeomodelPoint defined over wgs-84, received NeomodelPoint defined over cartesian").
Proof.
  destruct (deflate_sound {| pp_crs := "wgs-84" |}
              (PointValue {| _crs := "cartesian"; coords := [1; 2] |}))
    as (_ & Hcrs & _).
  apply (Hcrs {| _crs := "cartesian"; coords := [1; 2] |}); [reflexivity | discriminate].
Defined.

Lemma inflate_sound_witness :
  exists p,
    crs p = "wgs-84" /\ well_formed p
    /\ PointProperty_deflate {| pp_crs := "wgs-84" |} (PointValue p)
       = Ok (Some (WGS84Point [10; 20])).
Proof.
  destruct (inflate_sound (fun n : Z => n) {| pp_crs := "wgs-84" |}
              (WGS84Point [10; 20]) "" (Some {| _crs := "wgs-84"; coords := [10; 20] |})
              eq_refl) as (p & _ & Hcrs & Hwf & Hdeflate).
  exists p. split; [exact Hcrs|]. split; [exact Hwf | exact Hdeflate].
Defined.

(** ** Order of the resolved schema *)

Section SchemaOrder.
Context {V W O : Type}.
Implicit Types (props : list (string * descriptor V W O)).

Lemma keys_set_prefix {A} (k : string) (v : A) (d : list (string * A)) :
  Dict.keys d `prefix_of` Dict.keys (Dict.set k v d).
Proof.
  unfold Dict.keys. induction d as [|[k' v'] d IH]; simpl.
  - apply prefix_nil.
  - destruct (decide (k' = k)) as [->|Hne]; simpl; [reflexivity|].
    by apply prefix_cons.
Qed.

Lemma keys_update_prefix {A} (d items : list (string * A)) :
  Dict.keys d `prefix_of` Dict.keys (Dict.update d items).
Proof.
  unfold Dict.update. revert d.
  induction items as [|[k v] items IH]; intros d; cbn [fold_left]; [reflexivity|].
  etrans; [apply (keys_set_prefix k v)|apply IH].
Qed.

Lemma merge_field_prefix a p r props (kf : string * descriptor V W O) :
  Dict.keys props `prefix_of` Dict.keys (merge_field a p r props kf).
Proof.
  destruct kf as [key d]. unfold merge_field.
  destruct (is_RelationshipDefinition d && r), (is_Property d && p),
    (is_AliasProperty d && a);
    repeat (etrans; [|apply keys_set_prefix]); reflexivity.
Qed.

Lemma merge_class_prefix a p r props (c : pyclass V W O) :
  Dict.keys props `prefix_of` Dict.keys (merge_class a p r props c).
Proof.
  unfold merge_class.
  etrans; [apply (keys_update_prefix props
    (Dict.of_items (List.filter (fun np => vars_selected a p r np.2) (cls_vars c))))|].
  destruct (cls_model_fields c) as [fields|]; [|reflexivity].
  generalize (Dict.update props
    (Dict.of_items (List.filter (fun np => vars_selected a p r np.2) (cls_vars c)))).
  induction fields as [|kf fields IH]; intros q; cbn [fold_left]; [reflexivity|].
  etrans; [apply (merge_field_prefix a p r q kf)|apply IH].
Qed.

(** X25. A class resolves the names of its parent chain first, in the
    parent's order, and its own new names after them: redeclaring a name
    keeps its place, so deriving a class never reorders what [deflate] and
    [inflate] go through. *)
Theorem subclass_extends_schema_order (name parent_name : string)
    (c : pyclass V W O) (mro : list (pyclass V W O))
    (ap aa ap' aa' : option (list (string * descriptor V W O))) (a p r : bool) :
  Dict.keys
    (defined_properties
       {| k_name := parent_name; k_mro := mro;
          k_all_properties := ap'; k_all_aliases := aa' |} a p r)
  `prefix_of`
  Dict.keys
    (defined_properties
       {| k_name := name; k_mro := c :: mro;
          k_all_properties := ap; k_all_aliases := aa |} a p r).
Proof.
  rewrite (defined_properties_mro {| k_name := name; k_mro := c :: mro;
             k_all_properties := ap; k_all_aliases := aa |}).
  rewrite (defined_properties_mro {| k_name := parent_name; k_mro := mro;
             k_all_properties := ap'; k_all_aliases := aa' |}).
  simpl. apply merge_class_prefix.
Qed.

End SchemaOrder.
